(** * Mission Control: the telemetry relay of [mission-control-server.js]

    A shallow embedding of the ingest handler (the ['end'] callback of
    [POST /telemetry]), of [broadcast] and of the ['connection'] handler,
    over a small model of the JavaScript values they touch: a heap of
    objects, property reads and writes, truthiness, exceptions and
    [try]/[catch], the [ws] sockets held in [wss.clients] and the
    [http.ServerResponse] the handler writes to. *)

From Stdlib Require Import ZArith String Ascii List Lia SpecFloat.
From stdpp Require Import base option list strings.

Local Open Scope string_scope.
Local Open Scope list_scope.

(** ** JavaScript values *)

Module JS.

(** A Number is an IEEE 754 binary64 value. *)
Definition number := spec_float.

(** The Number of a non-negative integer such as [Set.prototype.size]. *)
Definition number_of_nat (n : nat) : number :=
  binary_normalize 53 1024 (Z.of_nat n) 0 false.

(** Cells of the heap are named by their index. *)
Abbreviation loc := nat (only parsing).

Inductive value :=
| VUndefined
| VNull
| VBool (b : bool)
| VNumber (n : number)
| VString (s : string)
| VObject (l : loc).

(** An object of the heap. [obj_elems] is [Some] for an Array and holds its
    indexed elements; [obj_props] holds the other own properties, in creation
    order. *)
Record object := Object {
  obj_elems : option (list value);
  obj_props : list (string * value)
}.

Abbreviation heap := (list object) (only parsing).

(** What [JSON.parse] returns, seen as a tree. The properties of a [JObject]
    come in the own-key order of the parsed object. *)
#[local] Unset Elimination Schemes.
Inductive json :=
| JNull
| JBool (b : bool)
| JNumber (n : number)
| JString (s : string)
| JArray (items : list json)
| JObject (props : list (string * json)).
#[local] Set Elimination Schemes.

(** ToBoolean: [undefined], [null], [false], [+0], [-0], [NaN] and the empty
    string are falsy, everything else (every object too) is truthy. *)
Definition ToBoolean (v : value) : bool :=
  match v with
  | VUndefined | VNull => false
  | VBool b => b
  | VNumber (S754_zero _) | VNumber S754_nan => false
  | VNumber _ => true
  | VString s => negb (String.eqb s "")
  | VObject _ => true
  end.

Fixpoint assoc {A} (k : string) (ps : list (string * A)) : option A :=
  match ps with
  | [] => None
  | (k', v) :: r => if String.eqb k k' then Some v else assoc k r
  end.

(** [o[k] = v] on the named properties: an existing property keeps its place,
    a new one is created last. *)
Fixpoint assoc_set {A} (k : string) (v : A) (ps : list (string * A)) : list (string * A) :=
  match ps with
  | [] => [(k, v)]
  | (k', v') :: r => if String.eqb k k' then (k', v) :: r else (k', v') :: assoc_set k v r
  end.

(** [JSON.parse] builds a fresh object graph: every array and object of the
    tree gets a cell of its own, children first. *)
Definition alloc_items (alloc : json -> heap -> value * heap)
  : list json -> heap -> list value * heap :=
  fix go js h :=
    match js with
    | [] => ([], h)
    | j :: r =>
        let '(v, h1) := alloc j h in
        let '(vs, h2) := go r h1 in
        (v :: vs, h2)
    end.

Definition alloc_props (alloc : json -> heap -> value * heap)
  : list (string * json) -> heap -> list (string * value) * heap :=
  fix go ps h :=
    match ps with
    | [] => ([], h)
    | (k, j) :: r =>
        let '(v, h1) := alloc j h in
        let '(vs, h2) := go r h1 in
        ((k, v) :: vs, h2)
    end.

Fixpoint alloc (j : json) (h : heap) : value * heap :=
  match j with
  | JNull => (VNull, h)
  | JBool b => (VBool b, h)
  | JNumber n => (VNumber n, h)
  | JString s => (VString s, h)
  | JArray items =>
      let '(vs, h') := alloc_items alloc items h in
      (VObject (length h'), h' ++ [Object (Some vs) []])
  | JObject props =>
      let '(ps, h') := alloc_props alloc props h in
      (VObject (length h'), h' ++ [Object None ps])
  end.

(** What [JSON.stringify] sees when it walks a value. *)
Inductive serial :=
| Cyclic             (* the walk does not end: TypeError *)
| Omitted            (* [undefined]: left out of an object, [null] in an array *)
| Json (j : json).

Definition in_array (s : serial) : option json :=
  match s with Cyclic => None | Omitted => Some JNull | Json j => Some j end.

(** The properties of a plain object, [undefined] ones left out. *)
Fixpoint reify_props (walk : value -> serial) (ps : list (string * value))
  : option (list (string * json)) :=
  match ps with
  | [] => Some []
  | (k, v) :: r =>
      match walk v with
      | Cyclic => None
      | Omitted => reify_props walk r
      | Json j => cons (k, j) <$> reify_props walk r
      end
  end.

(** The walk with [fuel] levels of nesting to spend. On a graph with a cycle
    no fuel is enough. *)
Fixpoint reify (fuel : nat) (h : heap) (v : value) : serial :=
  match fuel with
  | 0 => Cyclic
  | S fuel =>
      match v with
      | VUndefined => Omitted
      | VNull => Json JNull
      | VBool b => Json (JBool b)
      | VNumber n => Json (JNumber n)
      | VString s => Json (JString s)
      | VObject l =>
          match h !! l with
          | None => Cyclic
          | Some o =>
              match obj_elems o with
              | Some vs =>
                  match mapM (fun v => in_array (reify fuel h v)) vs with
                  | Some js => Json (JArray js)
                  | None => Cyclic
                  end
              | None =>
                  match reify_props (reify fuel h) (obj_props o) with
                  | Some js => Json (JObject js)
                  | None => Cyclic
                  end
              end
          end
      end
  end.

(** *** Parsed trees in the heap *)

Section Induction.
Variable P : json -> Prop.
Hypothesis HNull : P JNull.
Hypothesis HBool : forall b, P (JBool b).
Hypothesis HNumber : forall n, P (JNumber n).
Hypothesis HString : forall s, P (JString s).
Hypothesis HArray : forall items, Forall P items -> P (JArray items).
Hypothesis HObject : forall props, Forall (fun kv => P (snd kv)) props -> P (JObject props).

Fixpoint json_ind (j : json) : P j :=
  match j with
  | JNull => HNull
  | JBool b => HBool b
  | JNumber n => HNumber n
  | JString s => HString s
  | JArray items =>
      HArray items
        ((fix go (l : list json) : Forall P l :=
            match l with
            | [] => @List.Forall_nil _ P
            | x :: r => @List.Forall_cons _ P x r (json_ind x) (go r)
            end) items)
  | JObject props =>
      HObject props
        ((fix go (l : list (string * json)) : Forall (fun kv => P (snd kv)) l :=
            match l with
            | [] => @List.Forall_nil _ _
            | x :: r => @List.Forall_cons _ _ x r (json_ind (snd x)) (go r)
            end) props)
  end.
End Induction.

(** ToBoolean of the value a tree is parsed to. *)
Definition truthy (j : json) : bool :=
  match j with
  | JNull => false
  | JBool b => b
  | JNumber (S754_zero _) | JNumber S754_nan => false
  | JNumber _ => true
  | JString s => negb (String.eqb s "")
  | JArray _ | JObject _ => true
  end.

(** Levels of nesting: the fuel [reify] needs. *)
Fixpoint height (j : json) : nat :=
  match j with
  | JArray items => S (foldr Nat.max 0 (map height items))
  | JObject props => S (foldr Nat.max 0 (map (fun kv => height (snd kv)) props))
  | _ => 1
  end.

(** [v] stands for the tree [j] in every heap that has the cells of [h]
    from [lo] on. *)
Definition stored (h : heap) (lo : nat) (v : value) (j : json) : Prop :=
  forall (H : heap) fuel,
    (forall i, lo <= i < length h -> H !! i = h !! i) ->
    height j <= fuel ->
    reify fuel H v = Json j.

Definition alloc_ok (j : json) : Prop :=
  forall h v h', alloc j h = (v, h') ->
    ToBoolean v = truthy j /\
    exists new, h' = h ++ new /\ height j <= S (length new) /\
                stored h' (length h) v j.

Definition prop_ok (h : heap) (lo bound : nat) (kv : string * value) (kj : string * json) : Prop :=
  fst kv = fst kj /\ ToBoolean (snd kv) = truthy (snd kj) /\
  height (snd kj) <= bound /\ stored h lo (snd kv) (snd kj).

End JS.

Import JS.

(** ** Exceptions, sockets, the response and the world the handlers run in *)

Inductive exn :=
| SyntaxError        (* [JSON.parse] on a text that is not JSON *)
| TypeError          (* a property of [null], a cyclic [JSON.stringify], ... *)
| NotOpened          (* [ws.send] on a socket that is not open *)
| HeadersSent.       (* [res.writeHead] once the head was written *)

Inductive completion (A : Type) :=
| Normal (a : A)
| Throw (e : exn).
Arguments Normal {A} a.
Arguments Throw {A} e.

Inductive ReadyState := CONNECTING | OPEN | CLOSING | CLOSED.

#[global] Instance ReadyState_eq_dec : EqDecision ReadyState.
Proof. solve_decision. Defined.

(** A socket of the [ws] library: [sent] lists the texts [send] handed to
    the transport, oldest first. *)
Record WebSocket := {
  ws_id : nat;
  readyState : ReadyState;
  sent : list string
}.

(** The [http.ServerResponse] of the request: the status [writeHead] wrote
    and the body [end] closed the response with. *)
Record ServerResponse := {
  statusCode : option nat;
  ended : option string
}.

Definition fresh_response : ServerResponse :=
  {| statusCode := None; ended := None |}.

(** Calls recorded for the proofs (the program does not read them). *)
Inductive call :=
| CallStringify (j : json)
| CallBroadcast (data : value) (h : heap).

Record world := {
  w_heap : heap;
  wss_clients : list WebSocket;        (* [wss.clients], in insertion order *)
  res : ServerResponse;
  calls : list call
}.

Definition set_heap (h : heap) (w : world) : world :=
  {| w_heap := h; wss_clients := wss_clients w; res := res w; calls := calls w |}.
Definition set_clients (cs : list WebSocket) (w : world) : world :=
  {| w_heap := w_heap w; wss_clients := cs; res := res w; calls := calls w |}.
Definition set_res (r : ServerResponse) (w : world) : world :=
  {| w_heap := w_heap w; wss_clients := wss_clients w; res := r; calls := calls w |}.
Definition record_call (c : call) (w : world) : world :=
  {| w_heap := w_heap w; wss_clients := wss_clients w; res := res w;
     calls := calls w ++ [c] |}.

(** Statements run in a world and complete normally or by a throw. *)
Definition M (A : Type) : Type := world -> completion A * world.

Definition ret {A} (a : A) : M A := fun w => (Normal a, w).
Definition throw {A} (e : exn) : M A := fun w => (Throw e, w).
Definition bind {A B} (m : M A) (k : A -> M B) : M B :=
  fun w => match m w with
           | (Normal a, w') => k a w'
           | (Throw e, w') => (Throw e, w')
           end.
Definition try_catch {A} (body : M A) (handler : exn -> M A) : M A :=
  fun w => match body w with
           | (Normal a, w') => (Normal a, w')
           | (Throw e, w') => handler e w'
           end.

Declare Scope js_scope.
Delimit Scope js_scope with js.
Notation "x <~ m ;; k" := (bind m (fun x => k))
  (at level 100, m at next level, right associativity) : js_scope.
Notation "m ;;; k" := (bind m (fun _ => k))
  (at level 100, right associativity) : js_scope.
Local Open Scope js_scope.

(** The three properties the handler reads. No built-in prototype defines
    them, so a read finds an own property or [undefined]. *)
Inductive field := agentId | status | timestamp.

Definition field_name (f : field) : string :=
  match f with
  | agentId => "agentId"
  | status => "status"
  | timestamp => "timestamp"
  end.

Definition own (h : heap) (l : loc) (k : string) : value :=
  match h !! l with
  | Some o => default VUndefined (assoc k (obj_props o))
  | None => VUndefined
  end.

(** [v.f] *)
Definition Get (v : value) (f : field) : M value :=
  fun w => match v with
           | VUndefined | VNull => (Throw TypeError, w)
           | VObject l => (Normal (own (w_heap w) l (field_name f)), w)
           | VBool _ | VNumber _ | VString _ => (Normal VUndefined, w)
           end.

Definition heap_set (l : loc) (k : string) (x : value) (h : heap) : heap :=
  match h !! l with
  | Some o => <[l := Object (obj_elems o) (assoc_set k x (obj_props o))]> h
  | None => h
  end.

(** [v.f = x] (the file is not in strict mode: on a primitive the write is
    dropped) *)
Definition Put (v : value) (f : field) (x : value) : M unit :=
  fun w => match v with
           | VUndefined | VNull => (Throw TypeError, w)
           | VObject l => (Normal tt, set_heap (heap_set l (field_name f) x (w_heap w)) w)
           | VBool _ | VNumber _ | VString _ => (Normal tt, w)
           end.

(** Whether ToString of a value completes, as the template literal of the
    log line needs it. An object that has an own [toString] property (never a
    function in parsed JSON) has no primitive value: TypeError. An array is
    joined, each element but [null] and [undefined] converted in turn; a
    plain object prints as [[object Object]]. *)
Fixpoint ToString_completes (fuel : nat) (h : heap) (v : value) : bool :=
  match fuel with
  | 0 => true
  | S fuel =>
      match v with
      | VObject l =>
          match h !! l with
          | None => true
          | Some o =>
              match assoc "toString" (obj_props o) with
              | Some _ => false
              | None =>
                  match obj_elems o, assoc "join" (obj_props o) with
                  | Some vs, None => forallb (ToString_completes fuel h) vs
                  | _, _ => true
                  end
              end
          end
      | _ => true
      end
  end.

Definition ToString (v : value) : M unit :=
  fun w => if ToString_completes (S (length (w_heap w))) (w_heap w) v
           then (Normal tt, w) else (Throw TypeError, w).

(** [res.writeHead(code, ...)] *)
Definition writeHead (code : nat) : M unit :=
  fun w => match statusCode (res w) with
           | Some _ => (Throw HeadersSent, w)
           | None => (Normal tt, set_res {| statusCode := Some code; ended := ended (res w) |} w)
           end.

(** [res.end(text)] *)
Definition res_end (text : string) : M unit :=
  fun w => match ended (res w) with
           | Some _ => (Normal tt, w)
           | None => (Normal tt, set_res {| statusCode := statusCode (res w); ended := Some text |} w)
           end.

(** [client.send(text)] of [ws]: on an open socket the text goes to the
    transport and the call returns (a write that fails later is reported
    through the ['error'] event, whose listener logs); on any other socket
    the call is an error, taken here as a throw. *)
Definition ws_send (text : string) (client : WebSocket) : completion WebSocket :=
  match readyState client with
  | OPEN => Normal {| ws_id := ws_id client; readyState := OPEN;
                      sent := sent client ++ [text] |}
  | _ => Throw NotOpened
  end.

(** [wss.clients.forEach(f)]: [f] runs on each socket in turn and may change
    it; a throw ends the iteration. *)
Fixpoint forEach (f : WebSocket -> completion WebSocket) (cs : list WebSocket)
  : completion unit * list WebSocket :=
  match cs with
  | [] => (Normal tt, [])
  | c :: r =>
      match f c with
      | Normal c' => let '(k, r') := forEach f r in (k, c' :: r')
      | Throw e => (Throw e, c :: r)
      end
  end.

Definition clients_forEach (f : WebSocket -> completion WebSocket) : M unit :=
  fun w => let '(k, cs) := forEach f (wss_clients w) in (k, set_clients cs w).

Definition clients_size : M nat :=
  fun w => (Normal (length (wss_clients w)), w).

(** ** The handlers *)

Section Handlers.

(** The two built-ins of the runtime the handlers call: [JSON.parse], [None]
    when it throws a SyntaxError, and [JSON.stringify] on a tree. *)
Variable JSON_parse : string -> option json.
Variable JSON_stringify : json -> string.

(** [JSON.parse(text)] *)
Definition parse (text : string) : M value :=
  fun w => match JSON_parse text with
           | None => (Throw SyntaxError, w)
           | Some j => let '(v, h) := alloc j (w_heap w) in (Normal v, set_heap h w)
           end.

(** [JSON.stringify(lit)] of an object literal whose values are primitives *)
Definition stringify (lit : json) : M string :=
  fun w => (Normal (JSON_stringify lit), record_call (CallStringify lit) w).

(** [{ type: 'TELEMETRY', payload: data }] as [JSON.stringify] walks it *)
Definition telemetry_message (payload : serial) : option json :=
  match payload with
  | Cyclic => None
  | Omitted => Some (JObject [("type", JString "TELEMETRY")])
  | Json j => Some (JObject [("type", JString "TELEMETRY"); ("payload", j)])
  end.

(** [function broadcast(data)] *)
Definition broadcast (data : value) : M unit :=
  (fun w => (Normal tt, record_call (CallBroadcast data (w_heap w)) w)) ;;;
  message <~ (fun w =>
    match telemetry_message (reify (S (length (w_heap w))) (w_heap w) data) with
    | Some j => stringify j w
    | None => (Throw TypeError, w)
    end) ;;
  clients_forEach (fun client =>
    if decide (readyState client = OPEN)
    then ws_send message client
    else Normal client).

Definition invalid_schema : json :=
  JObject [("error", JString "Invalid schema: agentId and status are required.")].
Definition invalid_json : json :=
  JObject [("error", JString "Invalid JSON")].
Definition ok_body (size : nat) : json :=
  JObject [("status", JString "ok"); ("broadcast_count", JNumber (number_of_nat size))].

(** The ['end'] callback of [POST /telemetry]; [body] is the request body
    and [now] what [new Date().toISOString()] returns at line 86. *)
Definition on_end (body : string) (now : string) : M unit :=
  try_catch
    (telemetryData <~ parse body ;;
     a <~ Get telemetryData agentId ;;
     invalid <~ (if negb (ToBoolean a) then ret true
                 else s <~ Get telemetryData status ;; ret (negb (ToBoolean s))) ;;
     if (invalid : bool) then
       writeHead 400 ;;;
       text <~ stringify invalid_schema ;;
       res_end text
     else
       t <~ Get telemetryData timestamp ;;
       (if negb (ToBoolean t) then Put telemetryData timestamp (VString now)
        else ret tt) ;;;
       broadcast telemetryData ;;;
       writeHead 200 ;;;
       size <~ clients_size ;;
       text <~ stringify (ok_body size) ;;
       res_end text ;;;
       a' <~ Get telemetryData agentId ;;
       ToString a')
    (fun e =>
       writeHead 400 ;;;
       text <~ stringify invalid_json ;;
       res_end text).

(** [{ type: 'SYSTEM', message: ..., timestamp: ... }] *)
Definition greeting (now : string) : json :=
  JObject [("type", JString "SYSTEM");
           ("message", JString "Connected to Mission Control Backend");
           ("timestamp", JString now)].

End Handlers.

(** A request on a heap [h] with [cs] connected: the callback runs with the
    response of this request, untouched so far. *)
Definition handle (JSON_parse : string -> option json) (JSON_stringify : json -> string)
  (body now : string) (h : heap) (cs : list WebSocket) : completion unit * world :=
  on_end JSON_parse JSON_stringify body now
    {| w_heap := h; wss_clients := cs; res := fresh_response; calls := [] |}.

(** ** What a request does, on the parsed tree *)

(** Truthiness of the property [f] of what [JSON.parse] returned. *)
Definition field_truthy (f : field) (j : json) : bool :=
  match j with
  | JObject props =>
      match assoc (field_name f) props with
      | Some x => truthy x
      | None => false
      end
  | _ => false
  end.

(** The record broadcast for the parsed properties [props]: [timestamp] is
    set to [now] when it is falsy. *)
Definition envelope (now : string) (props : list (string * json)) : list (string * json) :=
  if field_truthy timestamp (JObject props) then props
  else assoc_set "timestamp" (JString now) props.

Definition telemetry (payload : json) : json :=
  JObject [("type", JString "TELEMETRY"); ("payload", payload)].

(** A socket after a broadcast of [text]. *)
Definition deliver (text : string) (c : WebSocket) : WebSocket :=
  if decide (readyState c = OPEN)
  then {| ws_id := ws_id c; readyState := OPEN; sent := sent c ++ [text] |}
  else c.

(** The response [writeHead(code, ...)] and [end(JSON.stringify(lit))] leave. *)
Definition answer (JSON_stringify : json -> string) (code : nat) (lit : json)
  : ServerResponse :=
  {| statusCode := Some code; ended := Some (JSON_stringify lit) |}.

(** How many sockets were handed a text between two states of the set. *)
Definition handed_count (before after : list WebSocket) : nat :=
  length (List.filter
            (fun p => negb (length (sent (snd p)) =? length (sent (fst p)))%nat)
            (combine before after)).

(** What the values [0], [-0], [false] and [null] parse to. *)
Definition falsy_non_string (x : json) : Prop :=
  x = JNull \/ x = JBool false \/ exists s, x = JNumber (S754_zero s).

Definition is_broadcast (c : call) : bool :=
  match c with CallBroadcast _ _ => true | CallStringify _ => false end.

(** ** The server over time

    The process reacts to one event at a time, each handler running to its
    end before the next event is taken. [ws] adds an accepted socket to
    [wss.clients] and emits ['connection'] in the same turn, and removes the
    socket when its ['close'] is emitted; between the start of the closing
    handshake and that moment the socket is [CLOSING] and still in the set. *)

Section Server.

Variable JSON_parse : string -> option json.
Variable JSON_stringify : json -> string.

(** [wss.on('connection', (ws) => ...)]; the two listeners it registers only
    log. *)
Definition on_connection (now : string) (ws : WebSocket) : completion WebSocket :=
  ws_send (JSON_stringify (greeting now)) ws.

Record server := {
  s_heap : heap;
  s_clients : list WebSocket;
  s_next : nat;                            (* sockets accepted so far *)
  s_responses : list ServerResponse;       (* oldest first *)
  s_crashed : bool                         (* an exception left a handler *)
}.

Inductive event :=
| Connect (now : string)                   (* a dashboard connects *)
| Post (body now : string)                 (* [POST /telemetry] is read to its end *)
| CloseBegins (id : nat)                   (* the closing handshake of a socket starts *)
| CloseEnds (id : nat).                    (* ['close'] of a socket *)

Definition listening : server :=
  {| s_heap := []; s_clients := []; s_next := 0; s_responses := []; s_crashed := false |}.

Definition begin_close (id : nat) (c : WebSocket) : WebSocket :=
  if decide (ws_id c = id)
  then {| ws_id := ws_id c; readyState := CLOSING; sent := sent c |}
  else c.

Definition react (s : server) (e : event) : server :=
  match e with
  | Connect now =>
      let ws := {| ws_id := s_next s; readyState := OPEN; sent := [] |} in
      match on_connection now ws with
      | Normal ws' =>
          {| s_heap := s_heap s; s_clients := s_clients s ++ [ws'];
             s_next := S (s_next s); s_responses := s_responses s;
             s_crashed := false |}
      | Throw _ =>
          {| s_heap := s_heap s; s_clients := s_clients s ++ [ws];
             s_next := S (s_next s); s_responses := s_responses s;
             s_crashed := true |}
      end
  | Post body now =>
      let '(k, w) := handle JSON_parse JSON_stringify body now (s_heap s) (s_clients s) in
      {| s_heap := w_heap w; s_clients := wss_clients w;
         s_next := s_next s; s_responses := s_responses s ++ [res w];
         s_crashed := match k with Normal _ => false | Throw _ => true end |}
  | CloseBegins id =>
      {| s_heap := s_heap s; s_clients := map (begin_close id) (s_clients s);
         s_next := s_next s; s_responses := s_responses s; s_crashed := false |}
  | CloseEnds id =>
      {| s_heap := s_heap s;
         s_clients := filter (fun c => ws_id c <> id) (s_clients s);
         s_next := s_next s; s_responses := s_responses s; s_crashed := false |}
  end.

(** A crashed process reacts to nothing. *)
Definition step (s : server) (e : event) : server :=
  if s_crashed s then s else react s e.

Definition run (events : list event) : server := fold_left step events listening.

Definition is_post (e : event) : bool :=
  match e with Post _ _ => true | _ => false end.

(** The texts of the two kinds of message. *)
Definition is_greeting (text : string) : Prop :=
  exists now, text = JSON_stringify (greeting now).
Definition is_telemetry (text : string) : Prop :=
  exists payload, text = JSON_stringify (telemetry payload).

(** The sockets of [wss.clients] are distinct, as in a Set. *)
Definition distinct (s : server) : Prop :=
  NoDup (map ws_id (s_clients s)) /\
  Forall (fun i => i < s_next s) (map ws_id (s_clients s)).

(** A socket that was sent the greeting first and telemetry only since. *)
Definition greeted (c : WebSocket) : Prop :=
  exists now texts,
    sent c = JSON_stringify (greeting now) :: texts /\ Forall is_telemetry texts.

End Server.

(** ** An instance of the built-ins, to run the handlers on examples

    [Demo.print] writes a tree as [JSON.stringify] does, but for the digits
    of a Number that is not an integer below [2^53]: it gets its exact
    decimal expansion, where JavaScript stops at the shortest decimal that
    reads back as the same Number. [Demo.parse] reads back the texts of the
    trees of [Demo.known] and nothing else. *)

Module Demo.

Local Open Scope string_scope.

Definition dq : ascii := ascii_of_nat 34.
Definition backslash : ascii := ascii_of_nat 92.

Definition hex_digit (n : nat) : ascii :=
  if (n <? 10)%nat then ascii_of_nat (48 + n) else ascii_of_nat (87 + n).

Definition escape (c : ascii) : string :=
  let n := nat_of_ascii c in
  if ((n =? 34) || (n =? 92))%nat then String backslash (String c "")
  else if (n =? 8)%nat then String backslash "b"
  else if (n =? 9)%nat then String backslash "t"
  else if (n =? 10)%nat then String backslash "n"
  else if (n =? 12)%nat then String backslash "f"
  else if (n =? 13)%nat then String backslash "r"
  else if (n <? 32)%nat then
    String backslash ("u00" ++ String (hex_digit (n / 16)) (String (hex_digit (n mod 16)) ""))
  else String c "".

Fixpoint escape_all (s : string) : string :=
  match s with
  | EmptyString => ""
  | String c r => escape c ++ escape_all r
  end.

Definition quote (s : string) : string :=
  String dq (escape_all s ++ String dq "").

Fixpoint digits (fuel : nat) (n : N) (acc : string) : string :=
  match fuel with
  | 0 => acc
  | S fuel =>
      let acc' := String (ascii_of_N (48 + n mod 10)) acc in
      if (n / 10 =? 0)%N then acc' else digits fuel (n / 10)%N acc'
  end.

Definition print_N (n : N) : string := digits (S (N.size_nat n)) n "".

Fixpoint zeros (n : nat) : string :=
  match n with 0 => "" | S n => String "0" (zeros n) end.

Fixpoint strip_zeros (fuel : nat) (k : nat) (r : N) : nat * N :=
  match fuel with
  | 0 => (k, r)
  | S fuel => if (r mod 10 =? 0)%N then strip_zeros fuel (k - 1) (r / 10)%N else (k, r)
  end.

(** [m / 2^k] in decimal *)
Definition print_fraction (m : N) (k : nat) : string :=
  let d := (2 ^ N.of_nat k)%N in
  let whole := (m / d)%N in
  let r := ((m mod d) * 5 ^ N.of_nat k)%N in
  if (r =? 0)%N then print_N whole
  else
    let '(k', r') := strip_zeros k k r in
    let ds := print_N r' in
    print_N whole ++ "." ++ zeros (k' - String.length ds) ++ ds.

Definition print_number (n : number) : string :=
  match n with
  | S754_zero _ => "0"
  | S754_infinity _ | S754_nan => "null"
  | S754_finite s m e =>
      (if s then "-" else "") ++
      match e with
      | Z0 => print_N (Npos m)
      | Zpos p => print_N (Npos m * 2 ^ Npos p)
      | Zneg p => print_fraction (Npos m) (Pos.to_nat p)
      end
  end.

Fixpoint join (sep : string) (l : list string) : string :=
  match l with
  | [] => ""
  | [x] => x
  | x :: r => x ++ sep ++ join sep r
  end.

Fixpoint print (j : json) : string :=
  match j with
  | JNull => "null"
  | JBool true => "true"
  | JBool false => "false"
  | JNumber n => print_number n
  | JString s => quote s
  | JArray items => "[" ++ join "," (map print items) ++ "]"
  | JObject props =>
      "{" ++ join "," (map (fun kv => quote (fst kv) ++ ":" ++ print (snd kv)) props) ++ "}"
  end.

Definition parse_among (known : list json) (text : string) : option json :=
  List.find (fun j => String.eqb (print j) text) known.

Definition num (n : nat) : json := JNumber (number_of_nat n).

(** The submission of the first scenario of the specification. *)
Definition agent01 : json :=
  JObject [("agentId", JString "Agent-01"); ("status", JString "working");
           ("metrics", JObject [("cpu", num 50)]); ("logs", JArray [JString "start"])].

Definition no_agentId : json := JObject [("status", JString "working")].
Definition zero_timestamp : json :=
  JObject [("agentId", JString "Agent-01"); ("status", JString "idle"); ("timestamp", num 0)].
Definition zero_agentId : json :=
  JObject [("agentId", num 0); ("status", JString "working")].
Definition odd_agentId : json :=
  JObject [("agentId", JObject [("toString", num 1)]); ("status", JString "working")].

Definition known : list json :=
  [agent01; no_agentId; zero_timestamp; zero_agentId; odd_agentId; JNull].

Definition parse : string -> option json := parse_among known.

Definition post (body now : string) (h : heap) (cs : list WebSocket) :=
  handle parse print body now h cs.

(** A time of day, as [toISOString] writes it. *)
Definition now : string := "2026-11-03T09:00:00.000Z".

Definition open_socket (id : nat) : WebSocket :=
  {| ws_id := id; readyState := OPEN; sent := [] |}.
Definition closing_socket (id : nat) : WebSocket :=
  {| ws_id := id; readyState := CLOSING; sent := [] |}.

End Demo.

(** ** The request listener

    [http.createServer((req, res) => ...)]: the headers set on every
    response, then the four branches. [file] is what [fs.readFile] gives the
    callback of [GET /]; [chunks] are the texts [chunk.toString()] returns
    for the ['data'] events of the request, in order, the ['end'] callback
    running after the last one. *)

Definition cors_headers : list (string * string) :=
  [("Access-Control-Allow-Origin", "*");
   ("Access-Control-Allow-Methods", "POST, OPTIONS");
   ("Access-Control-Allow-Headers", "Content-Type")].

Inductive readFile_result :=
| ReadError
| ReadData (data : string).

(** What a request leaves: the headers of [setHeader], the [Content-Type]
    given to [writeHead], how the last callback ended, and the world. *)
Record exchange := {
  x_headers : list (string * string);
  x_type : option string;
  x_end : completion unit;
  x_world : world
}.

(** [body += chunk.toString()] from [let body = ''] on *)
Definition body_of (chunks : list string) : string :=
  fold_left (fun body chunk => (body ++ chunk)%string) chunks "".

Definition not_found_text : string := "Not Found. Use POST /telemetry to send data.".
Definition read_error_text : string := "Error loading mission-control.html".

(** A response whose head is written and that is ended, 200 or 400. *)
Definition answered (r : ServerResponse) : Prop :=
  exists code text,
    r = {| statusCode := Some code; ended := Some text |} /\ (code = 200 \/ code = 400).

Section Listener.

Variable JSON_parse : string -> option json.
Variable JSON_stringify : json -> string.

Definition listener (method url : string) (file : readFile_result)
    (chunks : list string) (now : string) (h : heap) (cs : list WebSocket) : exchange :=
  let reply (type : option string) (m : M unit) :=
    let '(k, w) := m {| w_heap := h; wss_clients := cs; res := fresh_response; calls := [] |} in
    {| x_headers := cors_headers; x_type := type; x_end := k; x_world := w |} in
  if String.eqb method "OPTIONS" then
    reply None (writeHead 204 ;;; res_end "")
  else if String.eqb method "GET" && String.eqb url "/" then
    match file with
    | ReadError => reply (Some "text/plain") (writeHead 500 ;;; res_end read_error_text)
    | ReadData data => reply (Some "text/html") (writeHead 200 ;;; res_end data)
    end
  else if String.eqb method "POST" && String.eqb url "/telemetry" then
    reply (Some "application/json") (on_end JSON_parse JSON_stringify (body_of chunks) now)
  else
    reply (Some "text/plain") (writeHead 404 ;;; res_end not_found_text).

(** A body that cannot stop the process at the log line: what it parses to
    is not a record whose [agentId] is an array or an object. *)
Definition plain_agentId (body : string) : bool :=
  match JSON_parse body with
  | Some (JObject props) =>
      match assoc "agentId" props with
      | Some (JArray _) | Some (JObject _) => false
      | _ => true
      end
  | _ => true
  end.

Definition plain_event (e : event) : bool :=
  match e with
  | Post body _ => plain_agentId body
  | _ => true
  end.

(** What stays true of a socket that is not [OPEN], event after event. *)
Definition left_alone (c : WebSocket) (s : server) : Prop :=
  ws_id c < s_next s /\
  forall c', c' ∈ s_clients s -> ws_id c' = ws_id c ->
             sent c' = sent c /\ readyState c' <> OPEN.

(** The body parses to a record with truthy [agentId] and [status]. *)
Definition acceptable (body : string) : bool :=
  match JSON_parse body with
  | Some j => field_truthy agentId j && field_truthy status j
  | None => false
  end.

End Listener.

(** ** A transport on which a send can fail

    [broadcast] once more, with the [send] of the sockets left open: it
    returns the socket after the write or throws. With [ws_send] it is
    [broadcast]. *)

Section Transport.

Variable JSON_stringify : json -> string.
Variable send : string -> WebSocket -> completion WebSocket.

Definition broadcast_over (data : value) : M unit :=
  (fun w => (Normal tt, record_call (CallBroadcast data (w_heap w)) w)) ;;;
  message <~ (fun w =>
    match telemetry_message (reify (S (length (w_heap w))) (w_heap w) data) with
    | Some j => stringify JSON_stringify j w
    | None => (Throw TypeError, w)
    end) ;;
  clients_forEach (fun client =>
    if decide (readyState client = OPEN)
    then send message client
    else Normal client).

End Transport.


(** A record whose [agentId] is an empty array and whose [status] is an
    empty object. *)
Definition hollow : json :=
  JObject [("agentId", JArray []); ("status", JObject [])].

(** ** [chunk.toString()]

    A ['data'] chunk is a [Buffer], and [toString()] decodes it as UTF-8,
    each chunk on its own. A text is held by its UTF-8 bytes: decoding
    copies the well-formed sequences and writes U+FFFD for each ill-formed
    one, a sequence cut short by the end of the chunk included. *)
Module Utf8.

Record decoder := {
  needed : nat;            (* continuation bytes still to come *)
  lower : N;               (* bounds of the next continuation byte *)
  upper : N;
  seen : list Byte.byte    (* the bytes of the sequence so far *)
}.

Definition start : decoder :=
  {| needed := 0; lower := 128; upper := 191; seen := [] |}.

(** U+FFFD *)
Definition replacement : list Byte.byte := [Byte.xef; Byte.xbf; Byte.xbd].

Definition between (lo hi n : N) : bool := (N.leb lo n && N.leb n hi)%bool.

(** A byte met outside a sequence. *)
Definition lead (b : Byte.byte) : decoder * list Byte.byte :=
  let n := Byte.to_N b in
  if N.leb n 127 then (start, [b])
  else if between 194 223 n then
    ({| needed := 1; lower := 128; upper := 191; seen := [b] |}, [])
  else if between 224 239 n then
    ({| needed := 2; lower := if N.eqb n 224 then 160%N else 128%N;
        upper := if N.eqb n 237 then 159%N else 191%N; seen := [b] |}, [])
  else if between 240 244 n then
    ({| needed := 3; lower := if N.eqb n 240 then 144%N else 128%N;
        upper := if N.eqb n 244 then 143%N else 191%N; seen := [b] |}, [])
  else (start, replacement).

(** One byte more: the decoder after it and the bytes of text it gives. A
    byte that cannot continue the sequence ends it with U+FFFD and is read
    again as the first byte of the next one. *)
Definition feed (d : decoder) (b : Byte.byte) : decoder * list Byte.byte :=
  match needed d with
  | 0 => lead b
  | S k =>
      if between (lower d) (upper d) (Byte.to_N b) then
        match k with
        | 0 => (start, seen d ++ [b])
        | S _ => ({| needed := k; lower := 128; upper := 191; seen := seen d ++ [b] |}, [])
        end
      else let '(d', out) := lead b in (d', replacement ++ out)
  end.

Fixpoint state_after (d : decoder) (bytes : list Byte.byte) : decoder :=
  match bytes with
  | [] => d
  | b :: bytes => state_after (fst (feed d b)) bytes
  end.

(** The text of [bytes]; a sequence the end cuts short gives U+FFFD. *)
Fixpoint decode_from (d : decoder) (bytes : list Byte.byte) : list Byte.byte :=
  match bytes with
  | [] => match needed d with 0 => [] | S _ => replacement end
  | b :: bytes => snd (feed d b) ++ decode_from (fst (feed d b)) bytes
  end.

(** The bytes do not end inside a character. *)
Definition complete (bytes : list Byte.byte) : Prop :=
  needed (state_after start bytes) = 0.

End Utf8.

(** [chunk.toString()] *)
Definition Buffer_toString (chunk : list Byte.byte) : string :=
  string_of_list_byte (Utf8.decode_from Utf8.start chunk).

(** * Proofs *)

(** ** Parsed trees in the heap *)

Lemma stored_weaken h lo lo' v j :
  lo' <= lo -> stored h lo v j -> stored h lo' v j.
Proof.
  intros Hlo Hst H fuel Hag Hfuel. apply Hst; [|done].
  intros i Hi. apply Hag. lia.
Qed.

Lemma stored_app h n lo v j :
  stored h lo v j -> stored (h ++ n) lo v j.
Proof.
  intros Hst H fuel Hag Hfuel. apply Hst; [|done].
  intros i Hi. rewrite Hag by (rewrite length_app; lia).
  apply lookup_app_l. lia.
Qed.

Lemma prop_ok_weaken h lo lo' b b' kv kj :
  lo' <= lo -> b <= b' -> prop_ok h lo b kv kj -> prop_ok h lo' b' kv kj.
Proof.
  intros Hlo Hb (Hk & Ht & Hh & Hs). repeat split; [done|done|lia|].
  by apply (stored_weaken h lo lo').
Qed.

Lemma prop_ok_app h n lo b kv kj :
  prop_ok h lo b kv kj -> prop_ok (h ++ n) lo b kv kj.
Proof.
  intros (Hk & Ht & Hh & Hs). repeat split; [done|done|done|].
  by apply stored_app.
Qed.

Lemma alloc_props_ok props :
  Forall (fun kv => alloc_ok (snd kv)) props ->
  forall h ps h2, alloc_props alloc props h = (ps, h2) ->
    exists new, h2 = h ++ new /\
      Forall2 (prop_ok h2 (length h) (S (length new))) ps props.
Proof.
  induction 1 as [|[k j] props Hj _ IH]; intros h ps h2; simpl.
  - intros [= <- <-]. exists []. by rewrite app_nil_r.
  - destruct (alloc j h) as [v h1] eqn:E1.
    destruct (alloc_props alloc props h1) as [vs h2'] eqn:E2.
    intros [= <- <-].
    destruct (Hj _ _ _ E1) as (Ht & n1 & -> & Hh & Hst).
    destruct (IH _ _ _ E2) as (n2 & -> & Hall).
    exists (n1 ++ n2). rewrite app_assoc. split; [done|].
    rewrite length_app in *. constructor.
    + apply prop_ok_app.
      apply (prop_ok_weaken _ (length h) _ (S (length n1))); [lia|lia|].
      by repeat split.
    + eapply Forall2_impl; [exact Hall|].
      intros kv kj. apply prop_ok_weaken; lia.
Qed.

Lemma alloc_items_ok items :
  Forall alloc_ok items ->
  forall h vs h2, alloc_items alloc items h = (vs, h2) ->
    exists new, h2 = h ++ new /\
      Forall2 (fun v j => height j <= S (length new) /\ stored h2 (length h) v j) vs items.
Proof.
  induction 1 as [|j items Hj _ IH]; intros h vs h2; simpl.
  - intros [= <- <-]. exists []. by rewrite app_nil_r.
  - destruct (alloc j h) as [v h1] eqn:E1.
    destruct (alloc_items alloc items h1) as [vs' h2'] eqn:E2.
    intros [= <- <-].
    destruct (Hj _ _ _ E1) as (Ht & n1 & -> & Hh & Hst).
    destruct (IH _ _ _ E2) as (n2 & -> & Hall).
    exists (n1 ++ n2). rewrite app_assoc. split; [done|].
    rewrite length_app in *. constructor.
    + split; [lia | by apply stored_app].
    + eapply Forall2_impl; [exact Hall|].
      intros v' j' [? Hs]. split; [lia|].
      apply (stored_weaken _ (length h + length n1)); [lia|done].
Qed.

Lemma foldr_max_le {A} (f : A -> nat) (l : list A) (b : nat) :
  Forall (fun x => f x <= b) l -> foldr Nat.max 0 (map f l) <= b.
Proof. induction 1; simpl; lia. Qed.

Lemma le_foldr_max {A} (f : A -> nat) (l : list A) (x : A) :
  x ∈ l -> f x <= foldr Nat.max 0 (map f l).
Proof. induction 1; simpl; lia. Qed.

(** Reading the properties of a cell back, given what each value stands for. *)
Lemma reify_props_stored (walk : value -> serial) ps props :
  Forall2 (fun kv kj => fst kv = fst kj /\ walk (snd kv) = Json (snd kj)) ps props ->
  reify_props walk ps = Some props.
Proof.
  induction 1 as [|[k v] [k' j] ps props [Hk Hw] _ IH]; simpl in *; [done|].
  subst k'. by rewrite Hw, IH.
Qed.

Lemma reify_items_stored (walk : value -> serial) vs items :
  Forall2 (fun v j => walk v = Json j) vs items ->
  mapM (fun v => in_array (walk v)) vs = Some items.
Proof.
  induction 1 as [|v j vs items Hw _ IH]; simpl; [done|].
  by rewrite Hw, IH.
Qed.

Lemma foldr_max_Forall {A} (f : A -> nat) (l : list A) (b : nat) :
  foldr Nat.max 0 (map f l) <= b -> Forall (fun x => f x <= b) l.
Proof. induction l; simpl; intros; constructor; [lia | apply IHl; lia]. Qed.

Lemma Forall2_with_r {A B} (P R : A -> B -> Prop) (Q : B -> Prop) l k :
  Forall2 P l k -> Forall Q k ->
  (forall x y, P x y -> Q y -> R x y) -> Forall2 R l k.
Proof.
  intros HP HQ Himp. induction HP; inversion HQ; subst; constructor; auto.
Qed.

Lemma Forall2_right {A B} (P : A -> B -> Prop) (Q : B -> Prop) l k :
  Forall2 P l k -> (forall x y, P x y -> Q y) -> Forall Q k.
Proof. intros HP Himp. induction HP; constructor; eauto. Qed.

Lemma alloc_all_ok j : alloc_ok j.
Proof.
  induction j as [| | | |items IH|props IH] using json_ind; intros h v h'; simpl.
  1-4: intros [= <- <-]; (split; [done|]); exists []; rewrite app_nil_r;
       (repeat split; [simpl; lia |]);
       intros H [|fuel] _ Hf; simpl in *; [lia | done].
  - destruct (alloc_items alloc items h) as [vs h2] eqn:E. intros [= <- <-].
    split; [done|].
    destruct (alloc_items_ok _ IH _ _ _ E) as (new & -> & Hall).
    exists (new ++ [Object (Some vs) []]). rewrite app_assoc. split; [done|].
    rewrite !length_app. simpl. split.
    + apply le_n_S, foldr_max_le.
      eapply Forall2_right; [exact Hall|]. simpl. intros ? ? [? _]. lia.
    + intros H [|fuel] Hag Hf; simpl in Hf; [lia|]. simpl.
      rewrite Hag by (rewrite !length_app; simpl; lia).
      rewrite list_lookup_middle by (by rewrite length_app). simpl.
      rewrite (reify_items_stored (reify fuel H) vs items); [done|].
      apply (Forall2_with_r _ _ (fun j => height j <= fuel) _ _ Hall);
        [apply foldr_max_Forall; lia|].
      simpl. intros v j [_ Hst] Hj. apply Hst; [|done].
      intros i Hi. rewrite Hag by (rewrite !length_app in *; simpl; lia).
      apply lookup_app_l. lia.
  - destruct (alloc_props alloc props h) as [ps h2] eqn:E. intros [= <- <-].
    split; [done|].
    destruct (alloc_props_ok _ IH _ _ _ E) as (new & -> & Hall).
    exists (new ++ [Object None ps]). rewrite app_assoc. split; [done|].
    rewrite !length_app. simpl. split.
    + apply le_n_S, foldr_max_le.
      eapply Forall2_right; [exact Hall|]. simpl. intros ? ? (_ & _ & ? & _). lia.
    + intros H [|fuel] Hag Hf; simpl in Hf; [lia|]. simpl.
      rewrite Hag by (rewrite !length_app; simpl; lia).
      rewrite list_lookup_middle by (by rewrite length_app). simpl.
      rewrite (reify_props_stored (reify fuel H) ps props); [done|].
      apply (Forall2_with_r _ _ (fun kj => height (snd kj) <= fuel) _ _ Hall);
        [apply (foldr_max_Forall (fun kv => height (snd kv))); lia|].
      simpl. intros kv kj (Hk & _ & _ & Hst) Hj. split; [done|]. apply Hst; [|done].
      intros i Hi. rewrite Hag by (rewrite !length_app in *; simpl; lia).
      apply lookup_app_l. lia.
Qed.

(** ** The runs of the ['end'] callback *)

Section Runs.

Variable JSON_parse : string -> option json.
Variable JSON_stringify : json -> string.

Local Abbreviation handle := (handle JSON_parse JSON_stringify).

Lemma forEach_deliver text cs :
  forEach (fun client =>
             if decide (readyState client = OPEN)
             then ws_send text client else Normal client) cs
  = (Normal tt, map (deliver text) cs).
Proof.
  induction cs as [|c cs IH]; [done|].
  cbn [forEach map]. rewrite IH. unfold deliver, ws_send.
  destruct (decide (readyState c = OPEN)) as [E|?]; [by rewrite E | done].
Qed.

(** Nothing in [forEach] or in the callback of [broadcast] catches: were a
    callback to throw at a socket, the sockets after it would not be
    visited. *)
Lemma forEach_stops_at_throw f before c after e :
  Forall (fun c' => f c' = Normal c') before -> f c = Throw e ->
  forEach f (before ++ c :: after) = (Throw e, before ++ c :: after).
Proof.
  intros Hb Hc. induction Hb as [|c' before Hc' _ IH]; simpl.
  - by rewrite Hc.
  - by rewrite Hc', IH.
Qed.

Local Abbreviation answer := (answer JSON_stringify).

(** The body is not JSON. *)
Lemma handle_malformed body now h cs :
  JSON_parse body = None ->
  handle body now h cs
  = (Normal tt, {| w_heap := h; wss_clients := cs; res := answer 400 invalid_json;
                   calls := [CallStringify invalid_json] |}).
Proof.
  intros E. unfold handle, on_end, try_catch, bind, parse. simpl. by rewrite E.
Qed.

(** The body is the text [null]: reading [agentId] throws. *)
Lemma handle_null body now h cs :
  JSON_parse body = Some JNull ->
  handle body now h cs
  = (Normal tt, {| w_heap := h; wss_clients := cs; res := answer 400 invalid_json;
                   calls := [CallStringify invalid_json] |}).
Proof.
  intros E. unfold handle, on_end, try_catch, bind, parse. simpl. by rewrite E.
Qed.

Lemma own_last h e ps k :
  own (h ++ [Object e ps]) (length h) k = default VUndefined (assoc k ps).
Proof. unfold own. by rewrite list_lookup_middle. Qed.

Lemma heap_set_last h e ps k x :
  heap_set (length h) k x (h ++ [Object e ps]) = h ++ [Object e (assoc_set k x ps)].
Proof.
  unfold heap_set. rewrite list_lookup_middle by done. simpl.
  rewrite insert_app_r_alt by done. by rewrite Nat.sub_diag.
Qed.

(** Truthiness of a property of the allocated record is that of the tree. *)
Lemma assoc_truthy h lo b ps props k :
  Forall2 (prop_ok h lo b) ps props ->
  ToBoolean (default VUndefined (assoc k ps))
  = match assoc k props with Some x => truthy x | None => false end.
Proof.
  induction 1 as [|[k1 v] [k2 j] ps props (Hk & Ht & _) _ IH]; simpl in *; [done|].
  subst k2. destruct (String.eqb k k1); [exact Ht | exact IH].
Qed.

Lemma alloc_props_all props h ps h' :
  alloc_props alloc props h = (ps, h') ->
  exists new, h' = h ++ new /\ Forall2 (prop_ok h' (length h) (S (length new))) ps props.
Proof.
  apply alloc_props_ok. apply Forall_forall. intros; apply alloc_all_ok.
Qed.

Lemma Forall2_assoc_set {A B} (Q : A -> B -> Prop) k a b
    (ps : list (string * A)) (props : list (string * B)) :
  Forall2 (fun kv kj => fst kv = fst kj /\ Q (snd kv) (snd kj)) ps props ->
  Q a b ->
  Forall2 (fun kv kj => fst kv = fst kj /\ Q (snd kv) (snd kj))
    (assoc_set k a ps) (assoc_set k b props).
Proof.
  intros Hall Hab.
  induction Hall as [|[k1 v] [k2 j] ps props [Hk HQ] Hall IH]; simpl in *.
  - by repeat constructor.
  - subst k2. destruct (String.eqb k k1); constructor; simpl; auto.
Qed.

Lemma reify_record fuel (h : heap) l ps :
  h !! l = Some (Object None ps) ->
  reify (S fuel) h (VObject l)
  = match reify_props (reify fuel h) ps with
    | Some js => Json (JObject js)
    | None => Cyclic
    end.
Proof. intros E. simpl. by rewrite E. Qed.

(** The cell of a record whose properties stand for trees reads back as the
    object of these trees. *)
Lemma reify_cell h lo ps props :
  Forall2 (fun kv kj => fst kv = fst kj /\
             (height (snd kj) <= S (length h) /\ stored h lo (snd kv) (snd kj))) ps props ->
  reify (S (length (h ++ [Object None ps]))) (h ++ [Object None ps]) (VObject (length h))
  = Json (JObject props).
Proof.
  intros Hall. rewrite length_app, Nat.add_1_r.
  rewrite (reify_record _ _ _ ps) by (by apply list_lookup_middle).
  rewrite (reify_props_stored _ ps props); [done|].
  eapply Forall2_impl; [exact Hall|]. cbv beta.
  intros kv kj (Hk & Hh & Hst). split; [done|]. apply Hst; [|done].
  intros i Hi. apply lookup_app_l. lia.
Qed.

Lemma prop_ok_cell h new ps props :
  Forall2 (prop_ok (h ++ new) (length h) (S (length new))) ps props ->
  Forall2 (fun kv kj => fst kv = fst kj /\
             (height (snd kj) <= S (length (h ++ new)) /\
              stored (h ++ new) (length h) (snd kv) (snd kj))) ps props.
Proof.
  intros Hall. eapply Forall2_impl; [exact Hall|].
  intros kv kj (Hk & _ & Hh & Hst). rewrite length_app. repeat split; [done|lia|done].
Qed.

Lemma stored_string h lo s : stored h lo (VString s) (JString s).
Proof. intros H [|fuel] _ Hf; simpl in *; [lia|done]. Qed.

#[local] Arguments own : simpl never.
#[local] Arguments heap_set : simpl never.
#[local] Arguments reify : simpl never.
#[local] Arguments ToString_completes : simpl never.
#[local] Arguments forEach : simpl never.
#[local] Arguments alloc_props : simpl never.
#[local] Arguments alloc_items : simpl never.

Ltac run :=
  unfold Get, Put, ToString, writeHead, res_end, stringify, clients_size, clients_forEach,
    ret, throw, set_heap, set_res, set_clients, record_call; simpl.

(** The body is JSON, not [null], and [agentId] or [status] is falsy. *)
Lemma handle_reject body now h cs j :
  JSON_parse body = Some j -> j <> JNull ->
  field_truthy agentId j && field_truthy status j = false ->
  handle body now h cs
  = (Normal tt, {| w_heap := snd (alloc j h); wss_clients := cs;
                   res := answer 400 invalid_schema;
                   calls := [CallStringify invalid_schema] |}).
Proof.
  intros E Hj Hf. unfold handle, on_end, try_catch, bind, parse. simpl. rewrite E.
  destruct j as [| | | |items|props]; simpl in *; try done; try reflexivity.
  - destruct (alloc_items alloc items h) as [vs h2]. run. rewrite own_last. reflexivity.
  - destruct (alloc_props alloc props h) as [ps h'] eqn:Ea. run.
    destruct (alloc_props_all _ _ _ _ Ea) as (new & -> & Hall).
    rewrite own_last, (assoc_truthy _ _ _ _ _ _ Hall).
    destruct (assoc "agentId" props) as [x|]; [|reflexivity].
    destruct (truthy x); [|reflexivity]. simpl in *.
    rewrite own_last, (assoc_truthy _ _ _ _ _ _ Hall), Hf. reflexivity.
Qed.

(** A broadcast of a value [JSON.stringify] can walk. *)
Lemma broadcast_run data w j :
  reify (S (length (w_heap w))) (w_heap w) data = Json j ->
  broadcast JSON_stringify data w
  = (Normal tt,
     {| w_heap := w_heap w;
        wss_clients := map (deliver (JSON_stringify (telemetry j))) (wss_clients w);
        res := res w;
        calls := calls w ++ [CallBroadcast data (w_heap w); CallStringify (telemetry j)] |}).
Proof.
  intros Hr. unfold broadcast, bind. run. rewrite Hr. simpl.
  rewrite forEach_deliver. by rewrite <- app_assoc.
Qed.

(** The body is a JSON object with truthy [agentId] and [status]. *)
Lemma handle_accept body now h cs props ps h' :
  JSON_parse body = Some (JObject props) ->
  alloc_props alloc props h = (ps, h') ->
  field_truthy agentId (JObject props) = true ->
  field_truthy status (JObject props) = true ->
  let ps2 := if field_truthy timestamp (JObject props) then ps
             else assoc_set "timestamp" (VString now) ps in
  let h2 := h' ++ [Object None ps2] in
  let message := telemetry (JObject (envelope now props)) in
  handle body now h cs
  = (if ToString_completes (S (length h2)) h2 (default VUndefined (assoc "agentId" ps2))
     then Normal tt else Throw HeadersSent,
     {| w_heap := h2;
        wss_clients := map (deliver (JSON_stringify message)) cs;
        res := answer 200 (ok_body (length cs));
        calls := [CallBroadcast (VObject (length h')) h2; CallStringify message;
                  CallStringify (ok_body (length cs))] |}).
Proof.
  intros E Ea Ha Hs. unfold handle, on_end, try_catch, bind, parse. simpl.
  rewrite E. simpl. rewrite Ea. run.
  destruct (alloc_props_all _ _ _ _ Ea) as (new & -> & Hall).
  unfold field_truthy in *. simpl in Ha, Hs.
  rewrite own_last, (assoc_truthy _ _ _ _ _ _ Hall), Ha. simpl.
  rewrite own_last, (assoc_truthy _ _ _ _ _ _ Hall), Hs. simpl.
  rewrite own_last, (assoc_truthy _ _ _ _ _ _ Hall).
  unfold envelope, field_truthy. simpl.
  apply prop_ok_cell in Hall.
  destruct (match assoc "timestamp" props with Some x => truthy x | None => false end);
    simpl.
  - rewrite (broadcast_run _ _ (JObject props)) by (by apply (reify_cell _ (length h))).
    simpl. rewrite own_last, length_map.
    by destruct (ToString_completes _ _ _).
  - rewrite heap_set_last.
    rewrite (broadcast_run _ _ (JObject (assoc_set "timestamp" (JString now) props))).
    2:{ apply (reify_cell _ (length h)). simpl.
        apply (Forall2_assoc_set
                 (fun v j => height j <= S (length (h ++ new)) /\
                             stored (h ++ new) (length h) v j) _ _ _ _ _ Hall).
        split; [simpl; lia|apply stored_string]. }
    simpl. rewrite own_last, length_map.
    by destruct (ToString_completes _ _ _).
Qed.

(** Every request ends in one of the three ways above. *)
Lemma handle_cases body now h cs :
  (exists lit h1,
      (lit = invalid_json \/ lit = invalid_schema) /\
      handle body now h cs
      = (Normal tt, {| w_heap := h1; wss_clients := cs; res := answer 400 lit;
                       calls := [CallStringify lit] |}))
  \/ (exists props ps h',
         JSON_parse body = Some (JObject props) /\
         alloc_props alloc props h = (ps, h') /\
         field_truthy agentId (JObject props) = true /\
         field_truthy status (JObject props) = true).
Proof.
  destruct (JSON_parse body) as [j|] eqn:E.
  2:{ left. exists invalid_json, h. split; [by left | by apply handle_malformed]. }
  destruct (field_truthy agentId j && field_truthy status j) eqn:F.
  - right. destruct j as [| | | | |props]; try discriminate F.
    destruct (alloc_props alloc props h) as [ps h'] eqn:Ea.
    apply andb_prop in F as [Fa Fs]. by exists props, ps, h'.
  - left. destruct j as [| | | | |props].
    1:{ exists invalid_json, h. split; [by left | by apply handle_null]. }
    all: eexists invalid_schema, _; (split; [by right|]);
         by apply handle_reject.
Qed.

Lemma assoc_set_same {A} k (x : A) ps : assoc k (assoc_set k x ps) = Some x.
Proof.
  induction ps as [|[k1 v] ps IH]; simpl.
  - by rewrite String.eqb_refl.
  - destruct (String.eqb k k1) eqn:Ek; simpl; rewrite Ek; [done | exact IH].
Qed.

Lemma assoc_set_other {A} k k' (x : A) ps :
  k' <> k -> assoc k' (assoc_set k x ps) = assoc k' ps.
Proof.
  intros Hne. induction ps as [|[k1 v] ps IH]; simpl.
  - destruct (String.eqb k' k) eqn:Ek; [|done]. by apply String.eqb_eq in Ek.
  - destruct (String.eqb k k1) eqn:Ek; simpl; [|by rewrite IH].
    apply String.eqb_eq in Ek as <-.
    destruct (String.eqb k' k) eqn:Ek'; [|done]. by apply String.eqb_eq in Ek'.
Qed.

End Runs.

(** ** The ingest endpoint *)

Section Ingest.

Variable JSON_parse : string -> option json.
Variable JSON_stringify : json -> string.

Local Abbreviation handle := (handle JSON_parse JSON_stringify).
Local Abbreviation answer := (answer JSON_stringify).

(** C4. A body that [JSON.parse] rejects is answered 400 with the text of
    [{error: 'Invalid JSON'}]; the callback returns normally (the SyntaxError
    is caught, nothing leaves the handler), no socket is sent anything and
    [broadcast] is not called. *)
Theorem C4_unparseable_body_is_invalid_json body now h cs :
  JSON_parse body = None ->
  exists w,
    handle body now h cs = (Normal tt, w) /\
    res w = answer 400 invalid_json /\
    wss_clients w = cs /\
    filter is_broadcast (calls w) = [].
Proof.
  intros E. eexists. split; [by apply handle_malformed|]. done.
Qed.

(** C10. When [agentId] or [status] is present with the value [0], [false]
    or [null], the request is answered 400 with the text of the schema error,
    no socket is sent anything and [broadcast] is not called; the answer is
    the one a record without that property gets. *)
Theorem C10_falsy_field_is_schema_violation body now h cs props f x :
  JSON_parse body = Some (JObject props) ->
  f = agentId \/ f = status ->
  assoc (field_name f) props = Some x ->
  falsy_non_string x ->
  exists w,
    handle body now h cs = (Normal tt, w) /\
    res w = answer 400 invalid_schema /\
    wss_clients w = cs /\
    filter is_broadcast (calls w) = [] /\
    forall body0 props0 h0 cs0,
      JSON_parse body0 = Some (JObject props0) ->
      assoc (field_name f) props0 = None ->
      res (snd (handle body0 now h0 cs0)) = res w.
Proof.
  intros E Hf Hx Hfalsy.
  assert (Hrej : forall body0 props0 h0 cs0,
             JSON_parse body0 = Some (JObject props0) ->
             field_truthy f (JObject props0) = false ->
             handle body0 now h0 cs0
             = (Normal tt, {| w_heap := snd (alloc (JObject props0) h0); wss_clients := cs0;
                              res := answer 400 invalid_schema;
                              calls := [CallStringify invalid_schema] |})).
  { intros body0 props0 h0 cs0 E0 F0. apply handle_reject; [done|done|].
    destruct Hf as [-> | ->]; rewrite F0; [reflexivity | apply andb_false_r]. }
  eexists. split.
  - apply Hrej; [done|]. unfold field_truthy. rewrite Hx.
    destruct Hfalsy as [-> | [-> | [s ->]]]; done.
  - repeat split. intros body0 props0 h0 cs0 E0 F0.
    rewrite (Hrej body0 props0 h0 cs0 E0); [done|].
    unfold field_truthy. by rewrite F0.
Qed.

(** C3, at the body [null]: [JSON.parse] returns [null], the read of
    [agentId] throws a TypeError, and the [catch] answers with the text of
    [{error: 'Invalid JSON'}] though the body is JSON. *)
Theorem C3_null_body_is_answered_invalid_json body now h cs :
  JSON_parse body = Some JNull ->
  exists w,
    handle body now h cs = (Normal tt, w) /\
    res w = answer 400 invalid_json /\
    wss_clients w = cs.
Proof.
  intros E. eexists. split; [by apply handle_null|]. done.
Qed.

(** Every other JSON body whose [agentId] or [status] is missing or the
    empty string gets the schema error, and nothing is broadcast. *)
Lemma missing_or_empty_is_schema_violation body now h cs j f :
  JSON_parse body = Some j -> j <> JNull ->
  f = agentId \/ f = status ->
  (forall props, j = JObject props ->
     assoc (field_name f) props = None \/ assoc (field_name f) props = Some (JString "")) ->
  exists w,
    handle body now h cs = (Normal tt, w) /\
    res w = answer 400 invalid_schema /\
    wss_clients w = cs /\
    filter is_broadcast (calls w) = [].
Proof.
  intros E Hj Hf Hmiss.
  assert (field_truthy f j = false) as F.
  { destruct j as [| | | | |props]; try done.
    unfold field_truthy. by destruct (Hmiss props eq_refl) as [-> | ->]. }
  eexists. split.
  { apply handle_reject; [done|done|].
    destruct Hf as [-> | ->]; rewrite F; [reflexivity | apply andb_false_r]. }
  done.
Qed.

(** What the successful path leaves, in one statement. *)
Lemma accepted_world body now h cs props :
  JSON_parse body = Some (JObject props) ->
  field_truthy agentId (JObject props) = true ->
  field_truthy status (JObject props) = true ->
  exists ps h' k,
    alloc_props alloc props h = (ps, h') /\
    let ps2 := if field_truthy timestamp (JObject props) then ps
               else assoc_set "timestamp" (VString now) ps in
    let h2 := h' ++ [Object None ps2] in
    let message := telemetry (JObject (envelope now props)) in
    Forall2 (fun kv kj => fst kv = fst kj /\ ToBoolean (snd kv) = truthy (snd kj)) ps props /\
    reify (S (length h2)) h2 (VObject (length h')) = Json (JObject (envelope now props)) /\
    handle body now h cs
    = (k, {| w_heap := h2;
             wss_clients := map (deliver (JSON_stringify message)) cs;
             res := answer 200 (ok_body (length cs));
             calls := [CallBroadcast (VObject (length h')) h2; CallStringify message;
                       CallStringify (ok_body (length cs))] |}).
Proof.
  intros E Ha Hs. destruct (alloc_props alloc props h) as [ps h'] eqn:Ea.
  exists ps, h', (fst (handle body now h cs)). split; [done|]. cbv zeta.
  pose proof (handle_accept JSON_parse JSON_stringify body now h cs props ps h' E Ea Ha Hs)
    as Hrun. cbv zeta in Hrun.
  split; [|split; [|by rewrite Hrun]].
  all: destruct (alloc_props_all _ _ _ _ Ea) as (new & -> & Hall).
  - eapply Forall2_impl; [exact Hall|]. by intros kv kj (? & ? & _).
  - apply prop_ok_cell in Hall. unfold envelope.
    destruct (field_truthy timestamp (JObject props)).
    + by apply (reify_cell _ (length h)).
    + apply (reify_cell _ (length h)).
      apply (Forall2_assoc_set
               (fun v j => height j <= S (length (h ++ new)) /\
                           stored (h ++ new) (length h) v j) _ _ _ _ _ Hall).
      split; [simpl; lia | apply stored_string].
Qed.

Lemma assoc_related {A B} (R : A -> B -> Prop) k
    (ps : list (string * A)) (props : list (string * B)) :
  Forall2 (fun kv kj => fst kv = fst kj /\ R (snd kv) (snd kj)) ps props ->
  option_Forall2 R (assoc k ps) (assoc k props).
Proof.
  induction 1 as [|[k1 v] [k2 j] ps props [Hk HR] _ IH]; simpl in *; [constructor|].
  subst k2. destruct (String.eqb k k1); [by constructor | exact IH].
Qed.

Lemma Forall2_deliver text cs :
  Forall2 (fun c c' =>
             ws_id c' = ws_id c /\ readyState c' = readyState c /\
             sent c' = if decide (readyState c = OPEN) then sent c ++ [text] else sent c)
    cs (map (deliver text) cs).
Proof.
  induction cs as [|c cs IH]; simpl; constructor; [|done].
  unfold deliver. destruct (decide (readyState c = OPEN)) as [E|]; simpl; [by rewrite E|done].
Qed.

(** C6. Whatever the request, a value the handler passes to [broadcast] is
    an object whose [agentId], [status] and [timestamp] are truthy at the
    call: present, and none of them the empty string. The time the server
    writes is an ISO text, so not empty. *)
Theorem C6_broadcast_envelope_is_complete body now h cs data hh :
  now <> "" ->
  In (CallBroadcast data hh) (calls (snd (handle body now h cs))) ->
  exists l,
    data = VObject l /\
    ToBoolean (own hh l (field_name agentId)) = true /\
    ToBoolean (own hh l (field_name status)) = true /\
    ToBoolean (own hh l (field_name timestamp)) = true.
Proof.
  intros Hnow Hin.
  destruct (handle_cases JSON_parse JSON_stringify body now h cs)
    as [(lit & h1 & _ & Hrun) | (props & ps0 & h0 & E & _ & Ha & Hs)].
  { rewrite Hrun in Hin. simpl in Hin. by destruct Hin as [? | []]. }
  destruct (accepted_world body now h cs props E Ha Hs)
    as (ps & h' & k & Ea & Hps & _ & Hrun).
  assert (Hfield : forall f, field_truthy f (JObject props) = true ->
                            ToBoolean (default VUndefined (assoc (field_name f) ps)) = true).
  { intros f Hf. unfold field_truthy in Hf.
    destruct (assoc_related (fun v j => ToBoolean v = truthy j) (field_name f) _ _ Hps)
      as [v j Hvj|]; [|done].
    simpl. by rewrite Hvj. }
  destruct (field_truthy timestamp (JObject props)) eqn:Ht;
    rewrite Hrun in Hin; simpl in Hin;
    destruct Hin as [[= <- <-] | [? | [? | []]]]; try done;
    exists (length h'); (split; [done|]); rewrite !own_last.
  - repeat split;
      [apply (Hfield agentId) | apply (Hfield status) | apply (Hfield timestamp)]; done.
  - simpl. rewrite !assoc_set_other by done. rewrite assoc_set_same. simpl.
    repeat split; [apply (Hfield agentId) | apply (Hfield status) |]; try done.
    destruct (String.eqb now "") eqn:En; [|done].
    by apply String.eqb_eq in En.
Qed.

(** C7. Whatever the request, when the handler calls [broadcast] the value
    is walked and written to text once ([JSON.stringify] is called once for
    the message, once more for the response), and that one text is appended
    once to what each socket in state [OPEN] was sent; the other sockets are
    sent nothing. *)
Theorem C7_serialize_once_send_to_each_open body now h cs data hh :
  In (CallBroadcast data hh) (calls (snd (handle body now h cs))) ->
  exists payload,
    reify (S (length hh)) hh data = Json payload /\
    calls (snd (handle body now h cs))
    = [CallBroadcast data hh; CallStringify (telemetry payload);
       CallStringify (ok_body (length cs))] /\
    Forall2 (fun c c' =>
               ws_id c' = ws_id c /\ readyState c' = readyState c /\
               sent c' = if decide (readyState c = OPEN)
                         then sent c ++ [JSON_stringify (telemetry payload)]
                         else sent c)
      cs (wss_clients (snd (handle body now h cs))).
Proof.
  intros Hin.
  destruct (handle_cases JSON_parse JSON_stringify body now h cs)
    as [(lit & h1 & _ & Hrun) | (props & ps0 & h0 & E & _ & Ha & Hs)].
  { rewrite Hrun in Hin. simpl in Hin. by destruct Hin as [? | []]. }
  destruct (accepted_world body now h cs props E Ha Hs)
    as (ps & h' & k & Ea & _ & Hreify & Hrun).
  rewrite Hrun in *. simpl in *.
  destruct Hin as [[= <- <-] | [? | [? | []]]]; try done.
  exists (JObject (envelope now props)). split; [done|]. split; [done|].
  apply Forall2_deliver.
Qed.

(** C5, as the code has it. A submission with truthy [agentId] and [status]
    is answered 200 whatever its [timestamp]; the record broadcast has the
    server time as [timestamp] exactly when the [timestamp] received is
    falsy (absent, [""], [null], [false], [0]), and is the record received,
    untouched, when it is truthy. *)
Theorem C5_timestamp_filled_when_falsy body now h cs props :
  JSON_parse body = Some (JObject props) ->
  field_truthy agentId (JObject props) = true ->
  field_truthy status (JObject props) = true ->
  let w := snd (handle body now h cs) in
  let sent_record := envelope now props in
  res w = answer 200 (ok_body (length cs)) /\
  wss_clients w = map (deliver (JSON_stringify (telemetry (JObject sent_record)))) cs /\
  (field_truthy timestamp (JObject props) = true -> sent_record = props) /\
  (field_truthy timestamp (JObject props) = false ->
     assoc "timestamp" sent_record = Some (JString now) /\
     forall k, k <> "timestamp" -> assoc k sent_record = assoc k props).
Proof.
  intros E Ha Hs.
  destruct (accepted_world body now h cs props E Ha Hs)
    as (ps & h' & k & Ea & _ & _ & Hrun).
  cbv zeta. rewrite Hrun. cbn [snd res wss_clients]. split; [done|]. split; [done|].
  unfold envelope. split; intros Ht; rewrite Ht; [done|].
  split; [apply assoc_set_same | intros; by apply assoc_set_other].
Qed.

(** C8, as the code has it. What [JSON.parse] returned is the very object
    given to [broadcast] when the record is accepted. The handler writes to
    the heap in one case only: the record is accepted (truthy [agentId] and
    [status]) and its [timestamp] is falsy; then it sets the [timestamp] of
    that record, in place, and touches no other property and no other cell
    (the [metrics] and [logs] containers keep their contents). In every
    other case, a rejected record included, the heap is left as [JSON.parse]
    made it. *)
Theorem C8_handler_writes_timestamp_in_place body now h cs j v h1 :
  JSON_parse body = Some j ->
  alloc j h = (v, h1) ->
  let w := snd (handle body now h cs) in
  let accepted := field_truthy agentId j && field_truthy status j in
  let written := accepted && negb (field_truthy timestamp j) in
  (written = false -> w_heap w = h1) /\
  (accepted = true -> In (CallBroadcast v (w_heap w)) (calls w)) /\
  (accepted = false -> filter is_broadcast (calls w) = []) /\
  (written = true ->
   exists l,
     v = VObject l /\
     own (w_heap w) l "timestamp" = VString now /\
     (forall k, k <> "timestamp" -> own (w_heap w) l k = own h1 l k) /\
     (forall i, i <> l -> w_heap w !! i = h1 !! i)).
Proof.
  intros E Hv. cbv zeta.
  destruct (field_truthy agentId j && field_truthy status j) eqn:F.
  - destruct j as [| | | | |props]; try discriminate F.
    apply andb_prop in F as [Fa Fs].
    destruct (accepted_world body now h cs props E Fa Fs)
      as (ps & h' & k & Ea & Hps & _ & Hrun).
    rewrite Hrun. cbn [snd w_heap calls]. simpl in Hv. rewrite Ea in Hv.
    injection Hv as <- <-. rewrite !andb_true_l.
    destruct (field_truthy timestamp (JObject props)) eqn:Ft; cbn [negb].
    + repeat split; try done. by left.
    + split; [done|]. split; [by left|]. split; [done|]. intros _.
      exists (length h'). split; [done|]. split; [|split].
      * rewrite own_last. by rewrite assoc_set_same.
      * intros k0 Hk. rewrite !own_last. by rewrite assoc_set_other.
      * intros i Hi. destruct (decide (i < length h')) as [Hlt|Hge].
        -- by rewrite !lookup_app_l.
        -- rewrite !lookup_ge_None_2; [done | |]; rewrite length_app; simpl; lia.
  - rewrite andb_false_l. split; [|split; [done|split; [|done]]].
    + intros _. destruct j as [| | | | |props].
      1:{ rewrite (handle_null _ _ _ _ _ _ E). simpl in *. by injection Hv as _ <-. }
      all: rewrite (handle_reject _ _ _ _ _ _ _ E) by done; by rewrite Hv.
    + intros _. destruct j as [| | | | |props].
      1:{ by rewrite (handle_null _ _ _ _ _ _ E). }
      all: by rewrite (handle_reject _ _ _ _ _ _ _ E).
Qed.

Lemma handed_count_deliver text cs :
  handed_count cs (map (deliver text) cs)
  = length (filter (fun c => readyState c = OPEN) cs).
Proof.
  unfold handed_count. induction cs as [|c cs IH]; simpl; [done|].
  unfold deliver at 1. rewrite filter_cons.
  destruct (decide (readyState c = OPEN)) as [Eo|No]; simpl.
  - rewrite length_app. simpl.
    replace (length (sent c) + 1 =? length (sent c))%nat with false
      by (symmetry; apply Nat.eqb_neq; lia).
    simpl. by rewrite IH.
  - rewrite Nat.eqb_refl. simpl. exact IH.
Qed.

(** The count in the response is the size of [wss.clients]; the message is
    handed to the sockets in state [OPEN]. *)
Lemma broadcast_count_is_registry_size body now h cs props :
  JSON_parse body = Some (JObject props) ->
  field_truthy agentId (JObject props) = true ->
  field_truthy status (JObject props) = true ->
  let w := snd (handle body now h cs) in
  res w = answer 200 (ok_body (length cs)) /\
  handed_count cs (wss_clients w) = length (filter (fun c => readyState c = OPEN) cs).
Proof.
  intros E Ha Hs.
  destruct (accepted_world body now h cs props E Ha Hs)
    as (ps & h' & k & Ea & _ & _ & Hrun).
  cbv zeta. rewrite Hrun. simpl. split; [done|]. apply handed_count_deliver.
Qed.

End Ingest.

(** ** The broadcast *)

Section Broadcast.

Variable JSON_stringify : json -> string.

(** With the [send] of [ws], [broadcast] changes neither the set nor a
    state: a socket that is not [OPEN] is skipped, every socket that is
    [OPEN] is handed the message, and the call returns normally. *)
Lemma broadcast_skips_sockets_not_open data w payload :
  reify (S (length (w_heap w))) (w_heap w) data = Json payload ->
  exists w',
    broadcast JSON_stringify data w = (Normal tt, w') /\
    map ws_id (wss_clients w') = map ws_id (wss_clients w) /\
    map readyState (wss_clients w') = map readyState (wss_clients w) /\
    Forall2 (fun c c' =>
               if decide (readyState c = OPEN)
               then sent c' = sent c ++ [JSON_stringify (telemetry payload)]
               else c' = c)
      (wss_clients w) (wss_clients w').
Proof.
  intros Hr. eexists. split; [by apply broadcast_run|]. simpl.
  generalize (JSON_stringify (telemetry payload)). intros text.
  induction (wss_clients w) as [|c cs (IH1 & IH2 & IH3)]; simpl; [done|].
  rewrite IH1, IH2. unfold deliver at 1 2 3.
  destruct (decide (readyState c = OPEN)) as [E|N] eqn:D; simpl.
  - rewrite E. repeat split. constructor; [by rewrite D | done].
  - repeat split. constructor; [by rewrite D | done].
Qed.

Lemma broadcast_is_broadcast_over : broadcast JSON_stringify = broadcast_over JSON_stringify ws_send.
Proof. reflexivity. Qed.



#[local] Arguments reify : simpl never.
#[local] Arguments forEach : simpl never.



End Broadcast.

(** ** The server over time *)

Section ServerFacts.

Variable JSON_parse : string -> option json.
Variable JSON_stringify : json -> string.

Local Abbreviation handle := (handle JSON_parse JSON_stringify).
Local Abbreviation react' := (react JSON_parse JSON_stringify).
Local Abbreviation step' := (step JSON_parse JSON_stringify).
Local Abbreviation run' := (run JSON_parse JSON_stringify).
Local Abbreviation greeted' := (greeted JSON_stringify).

Lemma Forall_filter_keep {A} (P Q : A -> Prop) `{!forall x, Decision (Q x)} (l : list A) :
  Forall P l -> Forall P (filter Q l).
Proof.
  rewrite !Forall_forall. intros Hl x [_ Hx]%list_elem_of_filter. by apply Hl.
Qed.

(** A request leaves the set as it is or broadcasts one telemetry text. *)
Lemma handle_clients body now h cs :
  wss_clients (snd (handle body now h cs)) = cs \/
  exists payload,
    wss_clients (snd (handle body now h cs))
    = map (deliver (JSON_stringify (telemetry payload))) cs.
Proof.
  destruct (handle_cases JSON_parse JSON_stringify body now h cs)
    as [(lit & h1 & _ & Hrun) | (props & ps0 & h0 & E & _ & Ha & Hs)].
  - left. by rewrite Hrun.
  - right. destruct (accepted_world JSON_parse JSON_stringify body now h cs props E Ha Hs)
      as (ps & h' & k & _ & _ & _ & Hrun).
    exists (JObject (envelope now props)). by rewrite Hrun.
Qed.

Lemma deliver_greeted payload c :
  greeted' c -> greeted' (deliver (JSON_stringify (telemetry payload)) c).
Proof.
  intros (now & texts & Hs & Ht). unfold deliver.
  destruct (decide (readyState c = OPEN)); [|by exists now, texts].
  exists now, (texts ++ [JSON_stringify (telemetry payload)]). simpl. split.
  - by rewrite Hs.
  - apply Forall_app. split; [done|]. constructor; [by exists payload | constructor].
Qed.

Lemma react_greeted s e :
  Forall greeted' (s_clients s) -> Forall greeted' (s_clients (react' s e)).
Proof.
  intros Hs. destruct e as [now|body now|id|id]; simpl.
  - apply Forall_app. split; [done|]. constructor; [|constructor].
    exists now, []. by split.
  - destruct (handle body now (s_heap s) (s_clients s)) as [k w] eqn:Hrun. simpl.
    destruct (handle_clients body now (s_heap s) (s_clients s)) as [Hc | [payload Hc]];
      rewrite Hrun in Hc; simpl in Hc; rewrite Hc; [done|].
    apply Forall_map. eapply Forall_impl; [exact Hs|].
    intros c. apply deliver_greeted.
  - apply Forall_map. eapply Forall_impl; [exact Hs|].
    intros c Hc. unfold begin_close. by destruct (decide (ws_id c = id)).
  - by apply Forall_filter_keep.
Qed.

Lemma step_greeted s e :
  Forall greeted' (s_clients s) -> Forall greeted' (s_clients (step' s e)).
Proof.
  intros Hs. unfold step. destruct (s_crashed s); [done|].
  by apply react_greeted.
Qed.

Lemma run_from_greeted events s :
  Forall greeted' (s_clients s) ->
  Forall greeted' (s_clients (fold_left step' events s)).
Proof.
  revert s. induction events as [|e events IH]; intros s Hs; simpl; [done|].
  apply IH. by apply step_greeted.
Qed.

Lemma map_ws_id_deliver text cs : map ws_id (map (deliver text) cs) = map ws_id cs.
Proof.
  induction cs as [|c cs IH]; simpl; [done|]. rewrite IH. unfold deliver.
  by destruct (decide (readyState c = OPEN)).
Qed.

Lemma map_ws_id_begin_close id cs : map ws_id (map (begin_close id) cs) = map ws_id cs.
Proof.
  induction cs as [|c cs IH]; simpl; [done|]. rewrite IH. unfold begin_close.
  by destruct (decide (ws_id c = id)).
Qed.

Lemma map_ws_id_filter id cs :
  map ws_id (filter (fun c => ws_id c <> id) cs) = filter (fun i => i <> id) (map ws_id cs).
Proof.
  induction cs as [|c cs IH]; simpl; [done|]. rewrite !filter_cons.
  destruct (decide (ws_id c <> id)); simpl; by rewrite IH.
Qed.

Lemma step_distinct s e : distinct s -> distinct (step' s e).
Proof.
  intros [Hnd Hlt]. unfold step. destruct (s_crashed s); [done|].
  unfold distinct. destruct e as [now|body now|id|id]; simpl.
  - rewrite map_app. simpl. split.
    + apply NoDup_app. repeat split; [done| |apply NoDup_singleton].
      intros i Hi ->%list_elem_of_singleton.
      rewrite Forall_forall in Hlt. specialize (Hlt _ Hi). lia.
    + apply Forall_app. split.
      * eapply Forall_impl; [exact Hlt|]. simpl. lia.
      * constructor; [lia|constructor].
  - destruct (handle body now (s_heap s) (s_clients s)) as [k w] eqn:Hrun. simpl.
    destruct (handle_clients body now (s_heap s) (s_clients s)) as [Hc | [payload Hc]];
      rewrite Hrun in Hc; simpl in Hc; rewrite Hc; [|rewrite map_ws_id_deliver]; done.
  - by rewrite map_ws_id_begin_close.
  - rewrite map_ws_id_filter. split; [by apply NoDup_filter | by apply Forall_filter_keep].
Qed.

Lemma run_distinct events : distinct (run' events).
Proof.
  unfold run.
  assert (distinct (listening)) as H0 by (split; constructor).
  revert H0. generalize listening. induction events as [|e events IH]; intros s Hs; simpl;
    [done|]. apply IH. by apply step_distinct.
Qed.

(** C9. The greeting is the text of [{type: 'SYSTEM', message: 'Connected
    to Mission Control Backend', timestamp}], with the time of the
    connection; a telemetry message is the text of [{type: 'TELEMETRY',
    payload}]. Every socket of [wss.clients] was sent a greeting first, and
    telemetry only since. A connection puts the socket in the set with its
    greeting sent and nothing else; an event that is not a POST sends
    nothing to any socket. When the text of a telemetry message is never
    that of a greeting, no socket was sent a second greeting. *)
Theorem C9_greeting_first_then_telemetry events :
  let SYSTEM now :=
    JSON_stringify (JObject [("type", JString "SYSTEM");
                             ("message", JString "Connected to Mission Control Backend");
                             ("timestamp", JString now)]) in
  let TELEMETRY payload :=
    JSON_stringify (JObject [("type", JString "TELEMETRY"); ("payload", payload)]) in
  let s := run JSON_parse JSON_stringify events in
  Forall (fun c => exists now texts,
            sent c = SYSTEM now :: texts /\
            Forall (fun text => exists payload, text = TELEMETRY payload) texts)
    (s_clients s) /\
  (forall now,
      s_crashed s = false ->
      s_clients (step JSON_parse JSON_stringify s (Connect now))
      = s_clients s ++ [{| ws_id := s_next s; readyState := OPEN; sent := [SYSTEM now] |}]) /\
  (forall e c',
      is_post e = false -> c' ∈ s_clients (step JSON_parse JSON_stringify s e) ->
      (exists c, c ∈ s_clients s /\ ws_id c = ws_id c' /\ sent c' = sent c) \/
      (exists now, e = Connect now /\ sent c' = [SYSTEM now])) /\
  ((forall payload now, TELEMETRY payload <> SYSTEM now) ->
   Forall (fun c => forall text now, text ∈ tail (sent c) -> text <> SYSTEM now)
     (s_clients s)).
Proof.
  cbv zeta. set (s := run' events).
  assert (Hg : Forall greeted' (s_clients s)).
  { unfold s, run. apply run_from_greeted. constructor. }
  split; [exact Hg|]. split; [|split].
  - intros now Hc. unfold step. by rewrite Hc.
  - intros e c' He Hin. unfold step in Hin.
    destruct (s_crashed s); [left; by exists c'|].
    destruct e as [now|body now|id|id]; simpl in *; [| done | |].
    + apply elem_of_app in Hin as [Hin | ->%list_elem_of_singleton].
      * left. by exists c'.
      * right. by exists now.
    + apply list_elem_of_fmap in Hin as (c & -> & Hc). left. exists c.
      unfold begin_close. by destruct (decide (ws_id c = id)).
    + apply list_elem_of_filter in Hin as [_ Hc]. left. by exists c'.
  - intros Hne. eapply Forall_impl; [exact Hg|].
    intros c (now & texts & -> & Ht) text now' Hin ->. simpl in Hin.
    rewrite Forall_forall in Ht. destruct (Ht _ Hin) as [payload Hp].
    by apply (Hne payload now').
Qed.

End ServerFacts.

(** ** The handlers on examples *)

Example print_invalid_json :
  Demo.print invalid_json
  = ("{" ++ Demo.quote "error" ++ ":" ++ Demo.quote "Invalid JSON" ++ "}")%string.
Proof. reflexivity. Qed.

(** In the printed texts a telemetry message and a greeting differ at the
    type tag. *)
Lemma print_telemetry_not_greeting payload t :
  Demo.print (telemetry payload) <> Demo.print (greeting t).
Proof. intros H. cbn in H. discriminate H. Qed.

(** C1, on a set with one socket [OPEN] and one [CLOSING]: the message is
    handed to one socket and the response says [broadcast_count: 2], the
    size of [wss.clients]. *)
Theorem C1_broadcast_count_counts_skipped_sockets :
  let cs := [Demo.open_socket 0; Demo.closing_socket 1] in
  let w := snd (Demo.post (Demo.print Demo.agent01) Demo.now [] cs) in
  res w = answer Demo.print 200 (ok_body 2) /\
  handed_count cs (wss_clients w) = 1.
Proof. vm_compute. split; reflexivity. Qed.



Lemma C3_witness :
  Demo.parse "null" = Some JNull /\
  exists w,
    handle Demo.parse Demo.print "null" Demo.now [] [Demo.open_socket 0] = (Normal tt, w) /\
    res w = answer Demo.print 400 invalid_json /\
    wss_clients w = [Demo.open_socket 0].
Proof.
  split; [reflexivity|].
  apply (C3_null_body_is_answered_invalid_json Demo.parse Demo.print). reflexivity.
Defined.

Lemma C4_witness :
  Demo.parse "{oops" = None /\
  exists w,
    handle Demo.parse Demo.print "{oops" Demo.now [] [Demo.open_socket 0] = (Normal tt, w) /\
    res w = answer Demo.print 400 invalid_json /\
    wss_clients w = [Demo.open_socket 0] /\
    filter is_broadcast (calls w) = [].
Proof.
  split; [reflexivity|].
  apply (C4_unparseable_body_is_invalid_json Demo.parse Demo.print). reflexivity.
Defined.


(** C5 fails on a record with [timestamp: 0]: the property is there and is
    not the empty string, and the record broadcast carries the server time
    instead. *)
Lemma C5_counterexample :
  let w := snd (Demo.post (Demo.print Demo.zero_timestamp) Demo.now [] [Demo.open_socket 0]) in
  field_truthy agentId Demo.zero_timestamp = true /\
  field_truthy status Demo.zero_timestamp = true /\
  (exists x, Demo.zero_timestamp
             = JObject [("agentId", JString "Agent-01"); ("status", JString "idle");
                        ("timestamp", x)] /\ x <> JString "") /\
  In (CallStringify
        (telemetry (JObject [("agentId", JString "Agent-01"); ("status", JString "idle");
                             ("timestamp", JString Demo.now)])))
     (calls w).
Proof.
  cbv zeta. split; [reflexivity|]. split; [reflexivity|]. split.
  - eexists. split; [reflexivity|]. discriminate.
  - vm_compute. right. by left.
Qed.

Lemma C5_witness :
  let props := [("agentId", JString "Agent-01"); ("status", JString "idle");
                ("timestamp", Demo.num 0)] in
  let cs := [Demo.open_socket 0] in
  let w := snd (Demo.post (Demo.print Demo.zero_timestamp) Demo.now [] cs) in
  Demo.parse (Demo.print Demo.zero_timestamp) = Some (JObject props) /\
  field_truthy agentId (JObject props) = true /\
  field_truthy status (JObject props) = true /\
  res w = answer Demo.print 200 (ok_body 1) /\
  wss_clients w
  = map (deliver (Demo.print (telemetry (JObject (envelope Demo.now props))))) cs /\
  (field_truthy timestamp (JObject props) = true -> envelope Demo.now props = props) /\
  (field_truthy timestamp (JObject props) = false ->
     assoc "timestamp" (envelope Demo.now props) = Some (JString Demo.now) /\
     forall k, k <> "timestamp" -> assoc k (envelope Demo.now props) = assoc k props).
Proof.
  cbv zeta. split; [reflexivity|]. split; [reflexivity|]. split; [reflexivity|].
  apply (C5_timestamp_filled_when_falsy Demo.parse Demo.print); reflexivity.
Defined.

(** C6 as worded fails on a record whose [agentId] is an array with no
    element and whose [status] is an object with no property: both are
    truthy, so the request is answered 200 and the record is given to
    [broadcast] and sent to the socket as it is. Neither field is a
    non-empty text; both are empty containers. *)
Lemma C6_counterexample :
  let parse := Demo.parse_among [hollow] in
  let body := Demo.print hollow in
  let run := handle parse Demo.print body Demo.now [] [Demo.open_socket 0] in
  let w := snd run in
  let relayed :=
    telemetry (JObject [("agentId", JArray []); ("status", JObject []);
                        ("timestamp", JString Demo.now)]) in
  parse body = Some hollow /\
  fst run = Normal tt /\
  res w = answer Demo.print 200 (ok_body 1) /\
  In (CallBroadcast (VObject 2) (w_heap w)) (calls w) /\
  own (w_heap w) 2 "agentId" = VObject 0 /\
  w_heap w !! 0 = Some {| obj_elems := Some []; obj_props := [] |} /\
  own (w_heap w) 2 "status" = VObject 1 /\
  w_heap w !! 1 = Some {| obj_elems := None; obj_props := [] |} /\
  (forall text, own (w_heap w) 2 "agentId" <> VString text) /\
  (forall text, own (w_heap w) 2 "status" <> VString text) /\
  In (CallStringify relayed) (calls w) /\
  map sent (wss_clients w) = [[Demo.print relayed]].
Proof.
  cbv zeta. repeat (split; [vm_compute; first [reflexivity | by left | by right; left | discriminate]|]).
  vm_compute. reflexivity.
Qed.

Lemma C6_witness :
  let w := snd (Demo.post (Demo.print Demo.agent01) Demo.now [] [Demo.open_socket 0]) in
  Demo.now <> "" /\
  In (CallBroadcast (VObject 2) (w_heap w)) (calls w) /\
  exists l,
    VObject 2 = VObject l /\
    ToBoolean (own (w_heap w) l (field_name agentId)) = true /\
    ToBoolean (own (w_heap w) l (field_name status)) = true /\
    ToBoolean (own (w_heap w) l (field_name timestamp)) = true.
Proof.
  cbv zeta. split; [discriminate|]. split; [by left|].
  apply (C6_broadcast_envelope_is_complete Demo.parse Demo.print
           (Demo.print Demo.agent01) Demo.now [] [Demo.open_socket 0]);
    [discriminate | by left].
Defined.

Lemma C7_witness :
  let cs := [Demo.open_socket 0; Demo.closing_socket 1; Demo.open_socket 2] in
  let w := snd (Demo.post (Demo.print Demo.agent01) Demo.now [] cs) in
  In (CallBroadcast (VObject 2) (w_heap w)) (calls w) /\
  exists payload,
    reify (S (length (w_heap w))) (w_heap w) (VObject 2) = Json payload /\
    calls w = [CallBroadcast (VObject 2) (w_heap w); CallStringify (telemetry payload);
               CallStringify (ok_body 3)] /\
    Forall2 (fun c c' =>
               ws_id c' = ws_id c /\ readyState c' = readyState c /\
               sent c' = if decide (readyState c = OPEN)
                         then sent c ++ [Demo.print (telemetry payload)]
                         else sent c)
      cs (wss_clients w).
Proof.
  cbv zeta. split; [by left|].
  apply (C7_serialize_once_send_to_each_open Demo.parse Demo.print
           (Demo.print Demo.agent01) Demo.now []
           [Demo.open_socket 0; Demo.closing_socket 1; Demo.open_socket 2]).
  by left.
Defined.

(** C8 fails on the record of the first scenario: it has no [timestamp]
    when [JSON.parse] returns it and has one when the handler is done, and
    it is the object given to [broadcast]. *)
Lemma C8_counterexample :
  let parsed := alloc Demo.agent01 [] in
  let w := snd (Demo.post (Demo.print Demo.agent01) Demo.now [] []) in
  fst parsed = VObject 2 /\
  own (snd parsed) 2 "timestamp" = VUndefined /\
  own (w_heap w) 2 "timestamp" = VString Demo.now /\
  In (CallBroadcast (VObject 2) (w_heap w)) (calls w).
Proof. cbv zeta. repeat split; [by left]. Qed.

Lemma C8_witness :
  let w := snd (Demo.post (Demo.print Demo.agent01) Demo.now [] []) in
  let parsed := alloc Demo.agent01 [] in
  Demo.parse (Demo.print Demo.agent01) = Some Demo.agent01 /\
  (w_heap w <> snd parsed) /\
  In (CallBroadcast (fst parsed) (w_heap w)) (calls w) /\
  exists l,
    fst parsed = VObject l /\
    own (w_heap w) l "timestamp" = VString Demo.now /\
    (forall k, k <> "timestamp" -> own (w_heap w) l k = own (snd parsed) l k) /\
    (forall i, i <> l -> w_heap w !! i = snd parsed !! i).
Proof.
  cbv zeta. split; [reflexivity|]. split; [discriminate|].
  destruct (C8_handler_writes_timestamp_in_place Demo.parse Demo.print
              (Demo.print Demo.agent01) Demo.now [] [] Demo.agent01
              (fst (alloc Demo.agent01 [])) (snd (alloc Demo.agent01 []))
              eq_refl eq_refl) as (_ & Hcall & _ & Hwritten).
  split; [by apply Hcall | by apply Hwritten].
Defined.

Lemma C9_witness :
  let SYSTEM now :=
    Demo.print (JObject [("type", JString "SYSTEM");
                         ("message", JString "Connected to Mission Control Backend");
                         ("timestamp", JString now)]) in
  let TELEMETRY payload :=
    Demo.print (JObject [("type", JString "TELEMETRY"); ("payload", payload)]) in
  let events := [Connect Demo.now; Post (Demo.print Demo.agent01) Demo.now;
                 Connect Demo.now; CloseBegins 0; Post "{oops" Demo.now] in
  let s := run Demo.parse Demo.print events in
  (forall payload now, TELEMETRY payload <> SYSTEM now) /\
  Forall (fun c => exists now texts,
            sent c = SYSTEM now :: texts /\
            Forall (fun text => exists payload, text = TELEMETRY payload) texts)
    (s_clients s) /\
  Forall (fun c => forall text now, text ∈ tail (sent c) -> text <> SYSTEM now)
    (s_clients s).
Proof.
  cbv zeta. split; [apply print_telemetry_not_greeting|].
  pose proof (C9_greeting_first_then_telemetry Demo.parse Demo.print
                [Connect Demo.now; Post (Demo.print Demo.agent01) Demo.now;
                 Connect Demo.now; CloseBegins 0; Post "{oops" Demo.now])
    as (Hg & _ & _ & Hone).
  split; [exact Hg | apply Hone, print_telemetry_not_greeting].
Defined.

Lemma C10_witness :
  let props := [("agentId", Demo.num 0); ("status", JString "working")] in
  let cs := [Demo.open_socket 0] in
  Demo.parse (Demo.print Demo.zero_agentId) = Some (JObject props) /\
  assoc (field_name agentId) props = Some (Demo.num 0) /\
  falsy_non_string (Demo.num 0) /\
  exists w,
    handle Demo.parse Demo.print (Demo.print Demo.zero_agentId) Demo.now [] cs
    = (Normal tt, w) /\
    res w = answer Demo.print 400 invalid_schema /\
    wss_clients w = cs /\
    filter is_broadcast (calls w) = [] /\
    forall body0 props0 h0 cs0,
      Demo.parse body0 = Some (JObject props0) ->
      assoc (field_name agentId) props0 = None ->
      res (snd (handle Demo.parse Demo.print body0 Demo.now h0 cs0)) = res w.
Proof.
  cbv zeta.
  assert (Hz : falsy_non_string (Demo.num 0)) by (right; right; by exists false).
  split; [reflexivity|]. split; [reflexivity|]. split; [exact Hz|].
  apply (C10_falsy_field_is_schema_violation Demo.parse Demo.print
           (Demo.print Demo.zero_agentId) Demo.now [] [Demo.open_socket 0]
           [("agentId", Demo.num 0); ("status", JString "working")] agentId (Demo.num 0));
    [reflexivity | by left | reflexivity | exact Hz].
Defined.

(** The process does not survive a record whose [agentId] has a [toString]
    property: the response is written, the log line throws, and the
    [writeHead] of the [catch] throws in turn. *)
Example log_line_can_crash :
  fst (Demo.post (Demo.print Demo.odd_agentId) Demo.now [] []) = Throw HeadersSent /\
  s_crashed (run Demo.parse Demo.print [Post (Demo.print Demo.odd_agentId) Demo.now]) = true.
Proof. split; reflexivity. Qed.

(** The first scenario of the specification, with two dashboards connected. *)
Example scenario_two_observers :
  let s := run Demo.parse Demo.print
             [Connect Demo.now; Connect Demo.now; Post (Demo.print Demo.agent01) Demo.now] in
  map (fun c => length (sent c)) (s_clients s) = [2; 2] /\
  s_responses s = [answer Demo.print 200 (ok_body 2)] /\
  s_crashed s = false.
Proof. cbv zeta. repeat split. Qed.

(** * More of the server *)

(** ** The ingest callback, whatever the body *)

Section IngestFacts.

Variable JSON_parse : string -> option json.
Variable JSON_stringify : json -> string.

Local Abbreviation handle := (handle JSON_parse JSON_stringify).
Local Abbreviation answer := (answer JSON_stringify).

Lemma alloc_grows j h : exists new, snd (alloc j h) = h ++ new.
Proof.
  destruct (alloc j h) as [v h'] eqn:E.
  destruct (alloc_all_ok j h v h' E) as (_ & new & -> & _). by exists new.
Qed.

(** The response to every body, as a function of what it parses to. *)
Lemma handle_response body now h cs :
  res (snd (handle body now h cs))
  = if acceptable JSON_parse body then answer 200 (ok_body (length cs))
    else answer 400 match JSON_parse body with
                    | None | Some JNull => invalid_json
                    | Some _ => invalid_schema
                    end.
Proof.
  unfold acceptable. destruct (JSON_parse body) as [j|] eqn:E.
  2:{ by rewrite (handle_malformed _ _ _ _ _ _ E). }
  destruct (field_truthy agentId j && field_truthy status j) eqn:F.
  - destruct j as [| | | | |props]; try discriminate F.
    apply andb_prop in F as [Fa Fs].
    destruct (accepted_world JSON_parse JSON_stringify body now h cs props E Fa Fs)
      as (ps & h' & k & _ & _ & _ & Hrun).
    by rewrite Hrun.
  - destruct j as [| | | | |props].
    1:{ by rewrite (handle_null _ _ _ _ _ _ E). }
    all: by rewrite (handle_reject _ _ _ _ _ _ _ E).
Qed.

(** X1. The response of the ingest endpoint depends on the body alone (and,
    for the count, on the size of [wss.clients]): 200 with the count when
    the body parses to a record with truthy [agentId] and [status], 400
    with the schema error for any other JSON value but [null], 400 with
    [Invalid JSON] for [null] and for a text that does not parse. In every
    case the head is written and the response is ended. *)
Theorem X1_response_is_decided_by_the_body body now h cs :
  let r := res (snd (handle body now h cs)) in
  r = (if acceptable JSON_parse body then answer 200 (ok_body (length cs))
       else answer 400 match JSON_parse body with
                       | None | Some JNull => invalid_json
                       | Some _ => invalid_schema
                       end) /\
  (exists code text,
      r = {| statusCode := Some code; ended := Some text |} /\
      (code = 200 \/ code = 400) /\
      (code = 200 <-> acceptable JSON_parse body = true)).
Proof.
  cbv zeta. rewrite handle_response. split; [done|].
  destruct (acceptable JSON_parse body); eexists _, _; (split; [reflexivity|]).
  - split; [by left|]. by split.
  - split; [by right|]. split; [lia | done].
Qed.

Lemma handle_heap body now h cs :
  exists new, w_heap (snd (handle body now h cs)) = h ++ new.
Proof.
  destruct (JSON_parse body) as [j|] eqn:E.
  2:{ rewrite (handle_malformed _ _ _ _ _ _ E). exists []. simpl. by rewrite app_nil_r. }
  destruct (field_truthy agentId j && field_truthy status j) eqn:F.
  - destruct j as [| | | | |props]; try discriminate F.
    apply andb_prop in F as [Fa Fs].
    destruct (accepted_world JSON_parse JSON_stringify body now h cs props E Fa Fs)
      as (ps & h' & k & Ea & _ & _ & Hrun).
    rewrite Hrun. simpl.
    destruct (alloc_props_all _ _ _ _ Ea) as (new & -> & _).
    eexists. by rewrite <- app_assoc.
  - destruct j as [| | | | |props].
    1:{ rewrite (handle_null _ _ _ _ _ _ E). exists []. simpl. by rewrite app_nil_r. }
    all: rewrite (handle_reject _ _ _ _ _ _ _ E) by done; apply alloc_grows.
Qed.

(** X2. A request writes to no object that was in the heap before it: the
    heap it leaves is the heap it found, followed by the cells of the parsed
    body. What earlier requests left is never changed. *)
Theorem X2_request_leaves_older_objects_alone body now h cs :
  exists new,
    w_heap (snd (handle body now h cs)) = h ++ new /\
    forall i, i < length h -> w_heap (snd (handle body now h cs)) !! i = h !! i.
Proof.
  destruct (handle_heap body now h cs) as [new Hnew]. exists new. split; [done|].
  intros i Hi. rewrite Hnew. by apply lookup_app_l.
Qed.

Lemma alloc_props_plain props : forall h ps h',
  alloc_props alloc props h = (ps, h') ->
  Forall2 (fun kv kj =>
             fst kv = fst kj /\
             match snd kj, snd kv with
             | JArray _, _ | JObject _, _ => True
             | _, VObject _ => False
             | _, _ => True
             end) ps props.
Proof.
  induction props as [|[k j] props IH]; intros h ps h'; simpl.
  - intros [= <- <-]. constructor.
  - destruct (alloc j h) as [v h1] eqn:E1.
    destruct (alloc_props alloc props h1) as [vs h2] eqn:E2.
    intros [= <- <-]. constructor; [|by eapply IH].
    split; [done|]. simpl.
    destruct j; simpl in E1; try (by injection E1 as <- <-); done.
Qed.

(** When the callback ends by a throw. *)
Lemma handle_throw body now h cs e :
  fst (handle body now h cs) = Throw e ->
  e = HeadersSent /\
  res (snd (handle body now h cs)) = answer 200 (ok_body (length cs)) /\
  (exists payload,
      wss_clients (snd (handle body now h cs))
      = map (deliver (JSON_stringify (telemetry payload))) cs) /\
  plain_agentId JSON_parse body = false.
Proof.
  intros Hthrow.
  destruct (handle_cases JSON_parse JSON_stringify body now h cs)
    as [(lit & h1 & _ & Hrun) | (props & ps & h' & E & Ea & Ha & Hs)].
  { by rewrite Hrun in Hthrow. }
  pose proof (handle_accept JSON_parse JSON_stringify body now h cs props ps h' E Ea Ha Hs)
    as Hrun. cbv zeta in Hrun. rewrite Hrun in *. cbn [fst snd res wss_clients] in *.
  set (ps2 := if field_truthy timestamp (JObject props) then ps
              else assoc_set "timestamp" (VString now) ps) in *.
  destruct (ToString_completes _ _ (default VUndefined (assoc "agentId" ps2))) eqn:Hts;
    [done|].
  injection Hthrow as <-. split; [done|]. split; [done|].
  split; [by eexists|].
  unfold plain_agentId. rewrite E.
  assert (assoc "agentId" ps2 = assoc "agentId" ps) as Hsame.
  { unfold ps2. destruct (field_truthy timestamp (JObject props)); [done|].
    by apply assoc_set_other. }
  rewrite Hsame in Hts.
  pose proof (assoc_related
                (fun v j => match j, v with
                            | JArray _, _ | JObject _, _ => True
                            | _, VObject _ => False
                            | _, _ => True
                            end) "agentId" _ _ (alloc_props_plain _ _ _ _ Ea)) as Hrel.
  destruct Hrel as [v j Hvj|]; [|done].
  destruct j; try done; destruct v; try done; simpl in Hts; discriminate Hts.
Qed.

(** X3. The callback ends by a throw in one case only: the request was
    accepted, every socket that is [OPEN] was handed the message, the 200
    response was written and ended, and then the log line failed to turn
    an [agentId] that is an array or an object into text; what leaves the
    handler is the error of the [writeHead] in the [catch]. A record whose
    [agentId] is a string, a number or a boolean never makes it throw. *)
Theorem X3_callback_throws_only_after_answering_200 body now h cs :
  (forall e,
      fst (handle body now h cs) = Throw e ->
      e = HeadersSent /\
      res (snd (handle body now h cs)) = answer 200 (ok_body (length cs)) /\
      (exists payload,
          wss_clients (snd (handle body now h cs))
          = map (deliver (JSON_stringify (telemetry payload))) cs) /\
      plain_agentId JSON_parse body = false) /\
  (plain_agentId JSON_parse body = true -> fst (handle body now h cs) = Normal tt).
Proof.
  split; [apply handle_throw|].
  intros Hplain. destruct (fst (handle body now h cs)) as [[]|e] eqn:Hk; [done|].
  apply handle_throw in Hk as (_ & _ & _ & Hk). congruence.
Qed.

(** X4. When every socket of [wss.clients] is [OPEN], the count in the
    response of an accepted request is the number of sockets the message
    was handed to. *)
Theorem X4_count_is_exact_when_all_open body now h cs :
  acceptable JSON_parse body = true ->
  Forall (fun c => readyState c = OPEN) cs ->
  res (snd (handle body now h cs)) = answer 200 (ok_body (length cs)) /\
  handed_count cs (wss_clients (snd (handle body now h cs))) = length cs.
Proof.
  unfold acceptable. intros Hacc Hopen.
  destruct (JSON_parse body) as [[| | | | |props]|] eqn:E; try discriminate Hacc.
  apply andb_prop in Hacc as [Fa Fs].
  destruct (broadcast_count_is_registry_size JSON_parse JSON_stringify
              body now h cs props E Fa Fs) as [Hres Hcount].
  split; [done|]. rewrite Hcount. f_equal.
  clear -Hopen. induction Hopen as [|c cs Hc _ IH]; [done|].
  rewrite filter_cons. destruct (decide (readyState c = OPEN)); [|done].
  by rewrite IH.
Qed.

(** X5. A broadcast record that is posted again is relayed as it is: the
    time the server wrote the first time is truthy, so it is kept, and the
    sockets are handed the text of the same message. *)
Theorem X5_relayed_record_keeps_its_timestamp body now props body' now' h cs :
  JSON_parse body = Some (JObject props) ->
  acceptable JSON_parse body = true ->
  now <> "" ->
  JSON_parse body' = Some (JObject (envelope now props)) ->
  acceptable JSON_parse body' = true /\
  envelope now' (envelope now props) = envelope now props /\
  wss_clients (snd (handle body' now' h cs))
  = map (deliver (JSON_stringify (telemetry (JObject (envelope now props))))) cs.
Proof.
  unfold acceptable. intros E Hacc Hnow E'. rewrite E in Hacc. rewrite E'.
  apply andb_prop in Hacc as [Fa Fs].
  assert (Hkeep : forall f, f <> timestamp ->
             field_truthy f (JObject (envelope now props)) = field_truthy f (JObject props)).
  { intros f Hf. unfold envelope.
    destruct (field_truthy timestamp (JObject props)); [done|].
    unfold field_truthy. rewrite assoc_set_other; [done|]. by destruct f. }
  assert (Hts : field_truthy timestamp (JObject (envelope now props)) = true).
  { unfold envelope. destruct (field_truthy timestamp (JObject props)) eqn:Ht; [done|].
    unfold field_truthy. simpl. rewrite assoc_set_same. simpl.
    destruct (String.eqb now "") eqn:En; [|done]. by apply String.eqb_eq in En. }
  assert (Henv : envelope now' (envelope now props) = envelope now props).
  { unfold envelope at 1. by rewrite Hts. }
  rewrite !Hkeep, Fa, Fs by done. split; [done|]. split; [done|].
  destruct (accepted_world JSON_parse JSON_stringify body' now' h cs _ E')
    as (ps & h' & k & _ & _ & _ & Hrun); [by rewrite Hkeep | by rewrite Hkeep|].
  rewrite Hrun. simpl. by rewrite Henv.
Qed.




End IngestFacts.

(** ** The process over time *)

Section ProcessFacts.

Variable JSON_parse : string -> option json.
Variable JSON_stringify : json -> string.

Local Abbreviation handle := (handle JSON_parse JSON_stringify).
Local Abbreviation step' := (step JSON_parse JSON_stringify).
Local Abbreviation run' := (run JSON_parse JSON_stringify).

Lemma crashed_stays events s :
  s_crashed s = true -> fold_left step' events s = s.
Proof.
  intros Hc. induction events as [|e events IH]; simpl; [done|].
  unfold step at 2. by rewrite Hc.
Qed.

Lemma step_crashes s e :
  s_crashed s = false -> s_crashed (step' s e) = true ->
  exists body now, e = Post body now /\ plain_agentId JSON_parse body = false.
Proof.
  intros Hs. unfold step. rewrite Hs.
  destruct e as [now|body now|id|id]; simpl; try done.
  destruct (handle body now (s_heap s) (s_clients s)) as [k w] eqn:Hrun. simpl.
  destruct k as [[]|e]; [done|]. intros _. exists body, now. split; [done|].
  assert (fst (handle body now (s_heap s) (s_clients s)) = Throw e) as Hk by by rewrite Hrun.
  by apply handle_throw in Hk as (_ & _ & _ & ?).
Qed.

(** X6. The process stops on no connection, on no close of a socket and on
    no request whose [agentId] is a string, a number, a boolean, [null] or
    missing, whether the request is accepted, rejected or not JSON: after
    any sequence of such events it is still reacting. *)
Theorem X6_plain_events_never_stop_the_process events :
  forallb (plain_event JSON_parse) events = true ->
  s_crashed (run' events) = false.
Proof.
  unfold run. assert (s_crashed listening = false) as H0 by done.
  revert H0. generalize listening.
  induction events as [|e events IH]; intros s Hs Hall; simpl in *; [done|].
  apply andb_prop in Hall as [He Hall]. apply IH; [|done].
  destruct (s_crashed (step' s e)) eqn:Hc; [|done].
  apply step_crashes in Hc as (body & now & -> & Hplain); [|done].
  simpl in He. congruence.
Qed.

Lemma handle_answered body now h cs : answered (res (snd (handle body now h cs))).
Proof.
  rewrite handle_response.
  destruct (acceptable JSON_parse body); eexists _, _; (split; [reflexivity|]); auto.
Qed.

Lemma responses_from events : forall s,
  Forall answered (s_responses s) ->
  Forall answered (s_responses (fold_left step' events s)) /\
  (s_crashed (fold_left step' events s) = false ->
   length (s_responses (fold_left step' events s))
   = length (s_responses s) + length (List.filter is_post events)).
Proof.
  induction events as [|e events IH]; intros s Hs; simpl.
  { split; [done|]. intros _. lia. }
  destruct (s_crashed s) eqn:Hc.
  { rewrite crashed_stays by (unfold step; by rewrite Hc).
    unfold step. rewrite Hc. split; [done|]. congruence. }
  assert (Forall answered (s_responses (step' s e)) /\
          length (s_responses (step' s e))
          = length (s_responses s) + (if is_post e then 1 else 0)) as [Ha Hl].
  { unfold step. rewrite Hc. destruct e as [now|body now|id|id]; simpl;
      try (split; [done|lia]).
    pose proof (handle_answered body now (s_heap s) (s_clients s)) as Hans.
    destruct (handle body now (s_heap s) (s_clients s)) as [k w]. simpl in *.
    rewrite length_app. simpl. split; [|lia].
    apply Forall_app. split; [done|]. by constructor. }
  destruct (IH _ Ha) as [IH1 IH2]. split; [done|].
  intros Hlive. rewrite IH2 by done. rewrite Hl.
  destruct (is_post e); simpl; lia.
Qed.

(** X7. Every response the process has written is complete, with status
    200 or 400, and while the process is up there is exactly one response
    per request read to its end: connections and closes answer nothing, no
    request is answered twice or left without an answer. *)
Theorem X7_one_response_per_request events :
  Forall answered (s_responses (run' events)) /\
  (s_crashed (run' events) = false ->
   length (s_responses (run' events)) = length (List.filter is_post events)).
Proof.
  unfold run. destruct (responses_from events listening) as [H1 H2]; [constructor|].
  split; [done|]. intros Hlive. by rewrite H2.
Qed.

Lemma same_id_same_socket (cs : list WebSocket) c c' :
  NoDup (map ws_id cs) -> c ∈ cs -> c' ∈ cs -> ws_id c' = ws_id c -> c' = c.
Proof.
  induction cs as [|x cs IH]; simpl; intros Hnd Hc Hc' Hid; [by inversion Hc|].
  inversion Hnd as [|? ? Hnot Hnd']; subst.
  apply elem_of_cons in Hc as [->|Hc]; apply elem_of_cons in Hc' as [->|Hc']; auto.
  - exfalso. apply Hnot. rewrite <- Hid. apply list_elem_of_fmap. by exists c'.
  - exfalso. apply Hnot. rewrite Hid. apply list_elem_of_fmap. by exists c.
Qed.

Lemma step_left_alone c s e : left_alone c s -> left_alone c (step' s e).
Proof.
  intros [Hlt Hc]. unfold step. destruct (s_crashed s); [done|].
  destruct e as [now|body now|id|id]; simpl; split; simpl; try lia.
  - intros c' [Hin | ->%list_elem_of_singleton]%elem_of_app Hid; [by apply Hc|].
    simpl in Hid. lia.
  - destruct (handle body now (s_heap s) (s_clients s)) as [k w]; simpl; lia.
  - pose proof (handle_clients JSON_parse JSON_stringify body now (s_heap s) (s_clients s))
      as Hcs.
    destruct (handle body now (s_heap s) (s_clients s)) as [k w]. simpl in *.
    destruct Hcs as [-> | [payload ->]]; [done|].
    intros c' (c0 & -> & Hc0)%list_elem_of_fmap Hid.
    assert (ws_id (deliver (JSON_stringify (telemetry payload)) c0) = ws_id c0) as Hsame.
    { unfold deliver. by destruct (decide (readyState c0 = OPEN)). }
    rewrite Hsame in Hid. destruct (Hc c0 Hc0 Hid) as [Hs Hr].
    unfold deliver. by destruct (decide (readyState c0 = OPEN)).
  - intros c' (c0 & -> & Hc0)%list_elem_of_fmap Hid.
    assert (ws_id (begin_close id c0) = ws_id c0) as Hsame.
    { unfold begin_close. by destruct (decide (ws_id c0 = id)). }
    rewrite Hsame in Hid. destruct (Hc c0 Hc0 Hid) as [Hs Hr].
    unfold begin_close. by destruct (decide (ws_id c0 = id)).
  - intros c' [_ Hin]%list_elem_of_filter Hid. by apply Hc.
Qed.

(** X8. A socket that is in [wss.clients] and not [OPEN] is never sent
    anything again: whatever happens next, the texts it was sent stay what
    they are for as long as it is in the set, and it does not become [OPEN]
    again. *)
Theorem X8_socket_not_open_is_sent_nothing_more events more c c' :
  c ∈ s_clients (run JSON_parse JSON_stringify events) ->
  readyState c <> OPEN ->
  c' ∈ s_clients (fold_left (step JSON_parse JSON_stringify) more
                    (run JSON_parse JSON_stringify events)) ->
  ws_id c' = ws_id c ->
  sent c' = sent c /\ readyState c' <> OPEN.
Proof.
  intros Hc Hr. destruct (run_distinct JSON_parse JSON_stringify events) as [Hnd Hlt].
  assert (left_alone c (run' events)) as H0.
  { split.
    - rewrite Forall_forall in Hlt. apply Hlt. apply list_elem_of_fmap. by exists c.
    - intros c0 Hc0 Hid. by rewrite (same_id_same_socket _ _ _ Hnd Hc Hc0 Hid). }
  revert H0. generalize (run' events). clear Hc Hnd Hlt.
  induction more as [|e more IH]; intros s [Hlt Hall]; simpl.
  - apply Hall.
  - apply IH. by apply step_left_alone.
Qed.

Lemma step_at_most_one_more n s e :
  Forall (fun c => length (sent c) <= 1 + n) (s_clients s) ->
  Forall (fun c => length (sent c) <= 1 + (n + if is_post e then 1 else 0))
    (s_clients (step' s e)).
Proof.
  intros Hs. unfold step.
  assert (Hweak : forall m, n <= m ->
             Forall (fun c => length (sent c) <= 1 + m) (s_clients s)).
  { intros m Hm. eapply Forall_impl; [exact Hs|]. simpl. lia. }
  destruct (s_crashed s); [apply Hweak; lia|].
  destruct e as [now|body now|id|id]; simpl.
  - apply Forall_app. split; [apply Hweak; lia|]. constructor; [simpl; lia|constructor].
  - pose proof (handle_clients JSON_parse JSON_stringify body now (s_heap s) (s_clients s))
      as Hcs.
    destruct (handle body now (s_heap s) (s_clients s)) as [k w]. simpl in *.
    destruct Hcs as [-> | [payload ->]]; [apply Hweak; lia|].
    apply Forall_map. eapply Forall_impl; [exact Hs|]. simpl.
    intros c Hc. unfold deliver.
    destruct (decide (readyState c = OPEN)); simpl; [rewrite length_app; simpl|]; lia.
  - apply Forall_map. eapply Forall_impl; [exact Hs|]. simpl.
    intros c Hc. unfold begin_close. destruct (decide (ws_id c = id)); simpl; lia.
  - apply Forall_filter_keep. apply Hweak. lia.
Qed.

Lemma at_most_one_more_from events : forall s n,
  Forall (fun c => length (sent c) <= 1 + n) (s_clients s) ->
  Forall (fun c => length (sent c) <= 1 + (n + length (List.filter is_post events)))
    (s_clients (fold_left step' events s)).
Proof.
  induction events as [|e events IH]; intros s n Hs; simpl.
  - eapply Forall_impl; [exact Hs|]. simpl. lia.
  - apply (step_at_most_one_more n s e) in Hs. apply IH in Hs.
    eapply Forall_impl; [exact Hs|]. simpl. intros c Hc.
    destruct (is_post e); simpl; lia.
Qed.

(** X13. No socket is sent more than one message for a request: after any
    sequence of events a socket was sent its greeting and at most one text
    for each request read to its end; nothing is sent twice or sent again
    later. *)
Theorem X13_at_most_one_message_per_request events :
  Forall (fun c => length (sent c) <= 1 + length (List.filter is_post events))
    (s_clients (run' events)).
Proof.
  unfold run. apply (at_most_one_more_from events listening 0). constructor.
Qed.

End ProcessFacts.

(** ** The request listener *)

Section ListenerFacts.

Variable JSON_parse : string -> option json.
Variable JSON_stringify : json -> string.

Local Abbreviation listener' := (listener JSON_parse JSON_stringify).
Local Abbreviation handle' := (handle JSON_parse JSON_stringify).

Lemma listener_telemetry file chunks now h cs :
  listener' "POST" "/telemetry" file chunks now h cs
  = {| x_headers := cors_headers; x_type := Some "application/json";
       x_end := fst (handle' (body_of chunks) now h cs);
       x_world := snd (handle' (body_of chunks) now h cs) |}.
Proof.
  unfold listener, handle. simpl.
  by destruct (on_end _ _ _ _ _).
Qed.

(** X9. Only [POST /telemetry] reaches the sockets. Any other request, an
    [OPTIONS] on [/telemetry] with a valid submission as body included, is
    answered at once with 204, 200, 500 or 404 and the three CORS headers;
    its body is not read, nothing is parsed, the heap and [wss.clients] are
    left as they are and no handler throws. The paths are matched as they
    are written: what is not [OPTIONS], not [GET /] and not
    [POST /telemetry] gets 404 and the fixed text. *)
Theorem X9_only_post_telemetry_reaches_the_sockets method url file chunks now h cs :
  method <> "POST" \/ url <> "/telemetry" ->
  let x := listener' method url file chunks now h cs in
  x_headers x = cors_headers /\
  x_end x = Normal tt /\
  w_heap (x_world x) = h /\
  wss_clients (x_world x) = cs /\
  calls (x_world x) = [] /\
  exists code text,
    res (x_world x) = {| statusCode := Some code; ended := Some text |} /\
    (code = 204 \/ code = 200 \/ code = 500 \/ code = 404) /\
    (code = 204 <-> method = "OPTIONS") /\
    (method <> "OPTIONS" -> method <> "GET" \/ url <> "/" ->
     code = 404 /\ text = not_found_text).
Proof.
  intros Hne. cbv zeta. unfold listener.
  destruct (String.eqb method "OPTIONS") eqn:Eo.
  { apply String.eqb_eq in Eo. repeat split; eexists _, _; (split; [reflexivity|]).
    split; [by left|]. split; [by split | done]. }
  apply String.eqb_neq in Eo.
  destruct (String.eqb method "GET" && String.eqb url "/") eqn:Eg.
  { apply andb_prop in Eg as [Em Eu]. apply String.eqb_eq in Em, Eu.
    destruct file; repeat split; eexists _, _; (split; [reflexivity|]);
      (split; [auto|]); (split; [split; [lia|done]|]); by intros _ [? | ?]. }
  destruct (String.eqb method "POST" && String.eqb url "/telemetry") eqn:Ep.
  { apply andb_prop in Ep as [Em Eu]. apply String.eqb_eq in Em, Eu.
    by destruct Hne. }
  repeat split; eexists _, _; (split; [reflexivity|]);
    (split; [auto 6|]); (split; [split; [lia|done]|]); done.
Qed.

Lemma append_empty (a : string) : (a ++ "")%string = a.
Proof.
  induction a as [|c a IH]; [reflexivity|].
  change (String c (a ++ "")%string = String c a). by rewrite IH.
Qed.

Lemma append_append (a b c : string) : ((a ++ b) ++ c)%string = (a ++ (b ++ c))%string.
Proof.
  induction a as [|x a IH]; [reflexivity|].
  change (String x ((a ++ b) ++ c)%string = String x (a ++ (b ++ c))%string).
  by rewrite IH.
Qed.

Lemma concat_cons c chunks :
  String.concat "" (c :: chunks) = (c ++ String.concat "" chunks)%string.
Proof. destruct chunks; [|reflexivity]. simpl. by rewrite append_empty. Qed.

Lemma body_of_from chunks : forall body,
  fold_left (fun body chunk => (body ++ chunk)%string) chunks body
  = (body ++ String.concat "" chunks)%string.
Proof.
  induction chunks as [|c chunks IH]; intros body.
  - simpl. by rewrite append_empty.
  - cbn [fold_left]. rewrite IH, concat_cons. apply append_append.
Qed.

Lemma body_of_concat chunks : body_of chunks = String.concat "" chunks.
Proof. unfold body_of. by rewrite body_of_from. Qed.

Lemma decode_from_start d bytes :
  Utf8.needed d = 0 -> Utf8.decode_from d bytes = Utf8.decode_from Utf8.start bytes.
Proof.
  intros Hd. destruct bytes as [|b bytes]; simpl; [by rewrite Hd|].
  unfold Utf8.feed. by rewrite Hd.
Qed.

Lemma decode_from_app d a b :
  Utf8.needed (Utf8.state_after d a) = 0 ->
  Utf8.decode_from d (a ++ b) = Utf8.decode_from d a ++ Utf8.decode_from Utf8.start b.
Proof.
  revert d. induction a as [|x a IH]; intros d Hd; simpl in *.
  - rewrite Hd. by apply decode_from_start.
  - rewrite <- app_assoc. f_equal. by apply IH.
Qed.

Lemma string_of_list_byte_app a b :
  string_of_list_byte (a ++ b) = (string_of_list_byte a ++ string_of_list_byte b)%string.
Proof.
  unfold string_of_list_byte. induction a as [|x a IH]; [done|].
  change (String (ascii_of_byte x) (string_of_list_ascii (map ascii_of_byte (a ++ b)))
          = String (ascii_of_byte x)
              (string_of_list_ascii (map ascii_of_byte a)
               ++ string_of_list_ascii (map ascii_of_byte b))%string).
  by rewrite IH.
Qed.

Lemma Buffer_toString_app a b :
  Utf8.complete a ->
  Buffer_toString (a ++ b) = (Buffer_toString a ++ Buffer_toString b)%string.
Proof.
  intros Ha. unfold Buffer_toString. rewrite decode_from_app by exact Ha.
  apply string_of_list_byte_app.
Qed.

Lemma body_of_buffers chunks last :
  Forall Utf8.complete chunks ->
  body_of (map Buffer_toString (chunks ++ [last]))
  = Buffer_toString (concat (chunks ++ [last])).
Proof.
  intros Hall. rewrite body_of_concat.
  induction Hall as [|c chunks Hc _ IH].
  - simpl. by rewrite app_nil_r.
  - cbn [app map concat]. rewrite concat_cons, IH. symmetry. by apply Buffer_toString_app.
Qed.

(** X10. Each chunk is decoded on its own and the texts are put end to
    end. When no chunk but the last ends inside a character, the body is
    the text of the whole request, whatever the cuts: the request does what
    the same bytes in one chunk do. *)
Theorem X10_cuts_between_characters_do_not_matter method url file chunks last now h cs :
  Forall Utf8.complete chunks ->
  let texts := map Buffer_toString (chunks ++ [last]) in
  let whole := Buffer_toString (concat (chunks ++ [last])) in
  body_of texts = whole /\
  listener JSON_parse JSON_stringify method url file texts now h cs
  = listener JSON_parse JSON_stringify method url file [whole] now h cs.
Proof.
  intros Hall. cbv zeta. rewrite <- (body_of_buffers _ _ Hall).
  split; [done|]. unfold listener.
  replace (body_of [body_of (map Buffer_toString (chunks ++ [last]))])
    with (body_of (map Buffer_toString (chunks ++ [last]))); [done|].
  symmetry. by rewrite (body_of_concat [_]), concat_cons, append_empty.
Qed.

(** A cut inside a character does matter: each piece of the character is
    decoded to U+FFFD, and the body is not the text that was sent. *)
Example cut_inside_a_character :
  let chunks := [[Byte.x63; Byte.xc3]; [Byte.xa9]] in
  ~ Utf8.complete [Byte.x63; Byte.xc3] /\
  Buffer_toString (concat chunks) = string_of_list_byte [Byte.x63; Byte.xc3; Byte.xa9] /\
  body_of (map Buffer_toString chunks)
  = string_of_list_byte ([Byte.x63] ++ Utf8.replacement ++ Utf8.replacement) /\
  body_of (map Buffer_toString chunks) <> Buffer_toString (concat chunks).
Proof.
  cbv zeta. split; [discriminate|]. split; [reflexivity|]. split; [reflexivity|].
  discriminate.
Qed.

(** X11. A [POST /telemetry] with no body, or whose chunks are all empty,
    is answered 400 with [Invalid JSON] (the empty text is not JSON); no
    socket is sent anything and the heap is left as it is. *)
Theorem X11_empty_body_is_invalid_json file chunks now h cs :
  JSON_parse "" = None ->
  Forall (fun chunk => chunk = "") chunks ->
  let x := listener' "POST" "/telemetry" file chunks now h cs in
  x_end x = Normal tt /\
  res (x_world x) = answer JSON_stringify 400 invalid_json /\
  w_heap (x_world x) = h /\
  wss_clients (x_world x) = cs.
Proof.
  intros Hparse Hall. cbv zeta. rewrite listener_telemetry. simpl.
  assert (body_of chunks = "") as ->.
  { rewrite body_of_concat. induction Hall as [|c chunks -> _ IH]; [done|].
    by rewrite concat_cons, IH. }
  by rewrite (handle_malformed _ _ _ _ _ _ Hparse).
Qed.

End ListenerFacts.

(** ** These properties on examples *)

Lemma X4_witness :
  let cs := [Demo.open_socket 0; Demo.open_socket 1] in
  let w := snd (Demo.post (Demo.print Demo.agent01) Demo.now [] cs) in
  acceptable Demo.parse (Demo.print Demo.agent01) = true /\
  Forall (fun c => readyState c = OPEN) cs /\
  res w = answer Demo.print 200 (ok_body 2) /\
  handed_count cs (wss_clients w) = 2.
Proof.
  cbv zeta. split; [reflexivity|]. split; [by repeat constructor|].
  apply (X4_count_is_exact_when_all_open Demo.parse Demo.print);
    [reflexivity | by repeat constructor].
Defined.

Lemma X5_witness :
  let props := [("agentId", JString "Agent-01"); ("status", JString "working");
                ("metrics", JObject [("cpu", Demo.num 50)]);
                ("logs", JArray [JString "start"])] in
  let stamped := JObject (envelope Demo.now props) in
  let parse := Demo.parse_among [Demo.agent01; stamped] in
  let later := "2026-11-03T10:30:00.000Z" in
  let cs := [Demo.open_socket 0] in
  parse (Demo.print Demo.agent01) = Some (JObject props) /\
  acceptable parse (Demo.print Demo.agent01) = true /\
  Demo.now <> "" /\
  parse (Demo.print stamped) = Some stamped /\
  acceptable parse (Demo.print stamped) = true /\
  envelope later (envelope Demo.now props) = envelope Demo.now props /\
  wss_clients (snd (handle parse Demo.print (Demo.print stamped) later [] cs))
  = map (deliver (Demo.print (telemetry stamped))) cs.
Proof.
  cbv zeta. split; [reflexivity|]. split; [reflexivity|]. split; [discriminate|].
  split; [reflexivity|].
  apply (X5_relayed_record_keeps_its_timestamp
           (Demo.parse_among
              [Demo.agent01;
               JObject (envelope Demo.now
                          [("agentId", JString "Agent-01"); ("status", JString "working");
                           ("metrics", JObject [("cpu", Demo.num 50)]);
                           ("logs", JArray [JString "start"])])])
           Demo.print (Demo.print Demo.agent01) Demo.now);
    [reflexivity | reflexivity | discriminate | reflexivity].
Defined.

Lemma X6_witness :
  let events := [Connect Demo.now; Post (Demo.print Demo.agent01) Demo.now;
                 Post "{oops" Demo.now; Post "null" Demo.now;
                 Post (Demo.print Demo.zero_agentId) Demo.now; CloseBegins 0;
                 Post (Demo.print Demo.zero_timestamp) Demo.now; CloseEnds 0] in
  forallb (plain_event Demo.parse) events = true /\
  s_crashed (run Demo.parse Demo.print events) = false.
Proof.
  cbv zeta. split; [reflexivity|].
  apply (X6_plain_events_never_stop_the_process Demo.parse Demo.print). reflexivity.
Defined.

Lemma X8_witness :
  let events := [Connect Demo.now; Connect Demo.now; CloseBegins 0] in
  let more := [Post (Demo.print Demo.agent01) Demo.now; Connect Demo.now;
               Post (Demo.print Demo.zero_timestamp) Demo.now] in
  let c := {| ws_id := 0; readyState := CLOSING;
              sent := [Demo.print (greeting Demo.now)] |} in
  c ∈ s_clients (run Demo.parse Demo.print events) /\
  readyState c <> OPEN /\
  c ∈ s_clients (fold_left (step Demo.parse Demo.print) more
                   (run Demo.parse Demo.print events)) /\
  sent c = sent c /\ readyState c <> OPEN.
Proof.
  cbv zeta.
  assert (H1 : {| ws_id := 0; readyState := CLOSING;
                  sent := [Demo.print (greeting Demo.now)] |}
               ∈ s_clients (run Demo.parse Demo.print
                              [Connect Demo.now; Connect Demo.now; CloseBegins 0])).
  { apply list_elem_of_In. vm_compute. by left. }
  assert (H2 : {| ws_id := 0; readyState := CLOSING;
                  sent := [Demo.print (greeting Demo.now)] |}
               ∈ s_clients
                   (fold_left (step Demo.parse Demo.print)
                      [Post (Demo.print Demo.agent01) Demo.now; Connect Demo.now;
                       Post (Demo.print Demo.zero_timestamp) Demo.now]
                      (run Demo.parse Demo.print
                         [Connect Demo.now; Connect Demo.now; CloseBegins 0]))).
  { apply list_elem_of_In. vm_compute. by left. }
  split; [exact H1|]. split; [discriminate|]. split; [exact H2|].
  apply (X8_socket_not_open_is_sent_nothing_more Demo.parse Demo.print
           [Connect Demo.now; Connect Demo.now; CloseBegins 0]
           [Post (Demo.print Demo.agent01) Demo.now; Connect Demo.now;
            Post (Demo.print Demo.zero_timestamp) Demo.now]
           {| ws_id := 0; readyState := CLOSING;
              sent := [Demo.print (greeting Demo.now)] |}
           {| ws_id := 0; readyState := CLOSING;
              sent := [Demo.print (greeting Demo.now)] |} H1);
    [discriminate | exact H2 | reflexivity].
Defined.

Lemma X9_witness :
  let x := listener Demo.parse Demo.print "OPTIONS" "/telemetry" ReadError
             [Demo.print Demo.agent01] Demo.now [] [Demo.open_socket 0] in
  ("OPTIONS" <> "POST" \/ "/telemetry" <> "/telemetry") /\
  x_headers x = cors_headers /\
  x_end x = Normal tt /\
  w_heap (x_world x) = [] /\
  wss_clients (x_world x) = [Demo.open_socket 0] /\
  calls (x_world x) = [] /\
  exists code text,
    res (x_world x) = {| statusCode := Some code; ended := Some text |} /\
    (code = 204 \/ code = 200 \/ code = 500 \/ code = 404) /\
    (code = 204 <-> "OPTIONS" = "OPTIONS") /\
    ("OPTIONS" <> "OPTIONS" -> "OPTIONS" <> "GET" \/ "/telemetry" <> "/" ->
     code = 404 /\ text = not_found_text).
Proof.
  cbv zeta. split; [left; discriminate|].
  apply (X9_only_post_telemetry_reaches_the_sockets Demo.parse Demo.print
           "OPTIONS" "/telemetry"). left. discriminate.
Defined.

Lemma X10_witness :
  let chunks := [[Byte.x7b; Byte.xc3; Byte.xa9]; [Byte.xe2; Byte.x82; Byte.xac]] in
  let last := [Byte.x7d; Byte.xc3] in
  let texts := map Buffer_toString (chunks ++ [last]) in
  let whole := Buffer_toString (concat (chunks ++ [last])) in
  Forall Utf8.complete chunks /\
  body_of texts = whole /\
  listener Demo.parse Demo.print "POST" "/telemetry" ReadError texts Demo.now [] []
  = listener Demo.parse Demo.print "POST" "/telemetry" ReadError [whole] Demo.now [] [].
Proof.
  cbv zeta. split; [by repeat constructor|].
  apply (X10_cuts_between_characters_do_not_matter Demo.parse Demo.print
           "POST" "/telemetry" ReadError
           [[Byte.x7b; Byte.xc3; Byte.xa9]; [Byte.xe2; Byte.x82; Byte.xac]]
           [Byte.x7d; Byte.xc3] Demo.now [] []).
  by repeat constructor.
Defined.

Lemma X11_witness :
  let x := listener Demo.parse Demo.print "POST" "/telemetry" ReadError
             [""; ""] Demo.now [] [Demo.open_socket 0] in
  Demo.parse "" = None /\
  Forall (fun chunk => chunk = "") [""; ""] /\
  x_end x = Normal tt /\
  res (x_world x) = answer Demo.print 400 invalid_json /\
  w_heap (x_world x) = [] /\
  wss_clients (x_world x) = [Demo.open_socket 0].
Proof.
  cbv zeta. split; [reflexivity|]. split; [by repeat constructor|].
  apply (X11_empty_body_is_invalid_json Demo.parse Demo.print);
    [reflexivity | by repeat constructor].
Defined.

